(** * A single-cycle RISC-V teaching simulator ([JS/script.js])

    Shallow embedding of the decode/execute engine of the simulator and
    the properties its specification states about it.

    Modelling conventions.
    - A JavaScript number that the engine can hold is an integer; it is
      modelled by [Z].  Literals are taken in the range where double
      arithmetic on integers is exact; [-0] and [0] are identified (the
      code never tells them apart: both are falsy, both are [=== 0], both
      name the property ["0"]).
    - Instruction text is ASCII: white space is TAB, LF, VT, FF, CR and
      SPACE, and case conversion acts on the letters A-Z / a-z.
    - An array used with arbitrary property keys ([registers[rd]],
      [memory[memIndex]]) is a finite map from keys to values: reading an
      absent key gives [undefined], writing any key stores it.
    - The DOM refresh functions ([updateUI] and friends) do not touch the
      processor object and are left out. *)

From Stdlib Require Import ZArith Ascii String List Lia Bool.
From stdpp Require Import base decidable countable gmap list pretty.
Import ListNotations.

Local Open Scope string_scope.
Local Open Scope Z_scope.

(** ** JavaScript values held by the engine *)

Inductive jsval : Type :=
  | JNum (z : Z)
  | JNaN
  | JUndef.

#[global] Instance jsval_eq_dec : EqDecision jsval.
Proof. solve_decision. Defined.

#[global] Instance jsval_countable : Countable jsval.
Proof.
  refine (inj_countable'
            (fun v => match v with
                      | JNum z => inl z
                      | JNaN => inr true
                      | JUndef => inr false
                      end)
            (fun x => match x with
                      | inl z => JNum z
                      | inr true => JNaN
                      | inr false => JUndef
                      end) _).
  intros []; reflexivity.
Defined.

(** [n | 0] : ToInt32. *)
Definition wrap32 (z : Z) : Z := (z + 2^31) mod 2^32 - 2^31.

(** [n >>> 0] on an integer: ToUint32. *)
Definition wrapU32 (z : Z) : Z := z mod 2^32.

Definition toInt32 (v : jsval) : Z :=
  match v with
  | JNum z => wrap32 z
  | JNaN | JUndef => 0
  end.

Definition toUint32 (v : jsval) : Z :=
  match v with
  | JNum z => wrapU32 z
  | JNaN | JUndef => 0
  end.

(** ToNumber of a held value. *)
Definition toNumber (v : jsval) : jsval :=
  match v with
  | JUndef => JNaN
  | _ => v
  end.

(** [v + n] for a held value [v] and a number [n]. *)
Definition js_add (v w : jsval) : jsval :=
  match toNumber v, toNumber w with
  | JNum a, JNum b => JNum (a + b)
  | _, _ => JNaN
  end.

(** [v === w]. *)
Definition strict_eq (v w : jsval) : bool :=
  match v, w with
  | JNum a, JNum b => a =? b
  | JUndef, JUndef => true
  | _, _ => false
  end.

(** [v < w] and [v >= w] (both false as soon as one side is not a number). *)
Definition js_lt (v w : jsval) : bool :=
  match toNumber v, toNumber w with
  | JNum a, JNum b => a <? b
  | _, _ => false
  end.

Definition js_ge (v w : jsval) : bool :=
  match toNumber v, toNumber w with
  | JNum a, JNum b => a >=? b
  | _, _ => false
  end.

(** String(v), as a template literal renders it. *)
Definition show (v : jsval) : string :=
  match v with
  | JNum z => pretty z
  | JNaN => "NaN"
  | JUndef => "undefined"
  end.

(** ** Strings *)

Definition is_space (c : ascii) : bool :=
  let n := N_of_ascii c in
  ((9 <=? n) && (n <=? 13) || (n =? 32))%N.

Definition lower_char (c : ascii) : ascii :=
  let n := N_of_ascii c in
  if ((65 <=? n) && (n <=? 90))%N then ascii_of_N (n + 32) else c.

Definition upper_char (c : ascii) : ascii :=
  let n := N_of_ascii c in
  if ((97 <=? n) && (n <=? 122))%N then ascii_of_N (n - 32) else c.

Fixpoint map_string (f : ascii -> ascii) (s : string) : string :=
  match s with
  | EmptyString => EmptyString
  | String c r => String (f c) (map_string f r)
  end.

Definition toLowerCase : string -> string := map_string lower_char.
Definition toUpperCase : string -> string := map_string upper_char.

Fixpoint trimStart (s : string) : string :=
  match s with
  | String c r => if is_space c then trimStart r else s
  | EmptyString => EmptyString
  end.

Fixpoint trimEnd (s : string) : string :=
  match s with
  | EmptyString => EmptyString
  | String c r =>
      match trimEnd r with
      | EmptyString => if is_space c then EmptyString else String c EmptyString
      | t => String c t
      end
  end.

Definition trim (s : string) : string := trimEnd (trimStart s).

(** [s.replace(/,/g, '')]. *)
Fixpoint strip_commas (s : string) : string :=
  match s with
  | EmptyString => EmptyString
  | String c r =>
      if Ascii.eqb c "," then strip_commas r else String c (strip_commas r)
  end.

(** [s.split(/\s+/)]: [cur] is the piece being read, [sep] tells that the
    previous character belonged to a separator. *)
Fixpoint split_go (sep : bool) (cur : string) (s : string) : list string :=
  match s with
  | EmptyString => [cur]
  | String c r =>
      if is_space c
      then if sep then split_go true cur r else cur :: split_go true EmptyString r
      else split_go false (String.append cur (String c EmptyString)) r
  end.

Definition split_spaces (s : string) : list string :=
  split_go false EmptyString s.

Definition startsWith_x (s : string) : bool :=
  match s with
  | String c _ => Ascii.eqb c "x"
  | EmptyString => false
  end.

(** [s.substring(1)]. *)
Definition substring1 (s : string) : string :=
  match s with
  | String _ r => r
  | EmptyString => EmptyString
  end.

(** Value of a character as a digit of the given radix. *)
Definition digit_value (radix : Z) (c : ascii) : option Z :=
  let n := Z.of_N (N_of_ascii c) in
  let d := if (48 <=? n) && (n <=? 57) then n - 48
           else if (97 <=? n) && (n <=? 122) then n - 87
           else if (65 <=? n) && (n <=? 90) then n - 55
           else radix in
  if d <? radix then Some d else None.

(** Longest prefix of digits, read in the given radix; [None] when there
    is no digit at all. *)
Fixpoint read_digits (radix : Z) (acc : option Z) (s : string) : option Z :=
  match s with
  | EmptyString => acc
  | String c r =>
      match digit_value radix c with
      | Some d => read_digits radix (Some (radix * default 0 acc + d)) r
      | None => acc
      end
  end.

(** [parseInt(s)] without a radix argument.  The value is the exact
    integer the digits spell; JavaScript returns the nearest double,
    which is that integer as long as its magnitude is at most 2^53.
    Statements about the value read from a spelling carry that bound. *)
Definition parseInt (s : string) : jsval :=
  let s1 := trimStart s in
  let '(neg, s2) :=
    match s1 with
    | String "-" r => (true, r)
    | String "+" r => (false, r)
    | _ => (false, s1)
    end in
  let '(radix, s3) :=
    match s2 with
    | String "0" (String "x" r) => (16, r)
    | String "0" (String "X" r) => (16, r)
    | _ => (10, s2)
    end in
  match read_digits radix None s3 with
  | Some n => JNum (if neg then - n else n)
  | None => JNaN
  end.

(** ** Decoder *)

Record parsed := mkParsed { opcode : string; regs : list jsval }.

Definition parseInstruction (instrText : string) : parsed :=
  let parts := split_spaces (strip_commas (toLowerCase (trim instrText))) in
  let opcode := hd EmptyString parts in
  let regs := map (fun r => if startsWith_x r
                            then parseInt (substring1 r)
                            else parseInt r) (tl parts) in
  mkParsed opcode regs.


(** *** Lookup tables

    The three tables are object literals read with [table[mnemonic] || 0].
    A key that the literal does not define is looked up on the prototype
    of the object; after [toLowerCase] the only names found there are
    [constructor] and [__proto__], and what they yield is an object, not a
    number. *)

Inductive field : Type :=
  | FNum (z : Z)
  | FObject.

Definition inherited (k : string) : bool :=
  String.eqb k "constructor" || String.eqb k "__proto__".

Fixpoint own (tbl : list (string * Z)) (k : string) : option Z :=
  match tbl with
  | [] => None
  | (k', v) :: rest => if String.eqb k k' then Some v else own rest k
  end.

(** [tbl[k] || 0]. *)
Definition table_get (tbl : list (string * Z)) (k : string) : field :=
  match own tbl k with
  | Some v => FNum v
  | None => if inherited k then FObject else FNum 0
  end.

Definition opcodes : list (string * Z) :=
  [ ("add", 51); ("sub", 51); ("and", 51);
    ("or", 51); ("xor", 51); ("slt", 51);
    ("sltu", 51); ("sll", 51); ("srl", 51);
    ("sra", 51);
    ("addi", 19); ("andi", 19); ("ori", 19);
    ("xori", 19); ("slti", 19); ("sltiu", 19);
    ("slli", 19); ("srli", 19); ("srai", 19);
    ("lw", 3); ("lh", 3); ("lb", 3);
    ("lhu", 3); ("lbu", 3);
    ("sw", 35); ("sh", 35); ("sb", 35);
    ("beq", 99); ("bne", 99); ("blt", 99);
    ("bge", 99); ("bltu", 99); ("bgeu", 99) ].

Definition funct3Map : list (string * Z) :=
  [ ("add", 0); ("sub", 0); ("sll", 1); ("slt", 2);
    ("sltu", 3); ("xor", 4); ("srl", 5); ("sra", 5);
    ("or", 6); ("and", 7);
    ("addi", 0); ("slti", 2); ("sltiu", 3); ("xori", 4);
    ("ori", 6); ("andi", 7); ("slli", 1); ("srli", 5);
    ("srai", 5);
    ("lb", 0); ("lh", 1); ("lw", 2); ("lbu", 4); ("lhu", 5);
    ("sb", 0); ("sh", 1); ("sw", 2);
    ("beq", 0); ("bne", 1); ("blt", 4); ("bge", 5);
    ("bltu", 6); ("bgeu", 7) ].

Definition funct7Map : list (string * Z) :=
  [ ("sub", 32); ("sra", 32); ("srai", 32) ].

Definition getOpcodeValue (mnemonic : string) : field := table_get opcodes mnemonic.
Definition getFunct3 (mnemonic : string) : field := table_get funct3Map mnemonic.
Definition getFunct7 (mnemonic : string) : field := table_get funct7Map mnemonic.

(** [f === n] for a table value and a numeric literal. *)
Definition field_is (f : field) (n : Z) : bool :=
  match f with
  | FNum z => z =? n
  | FObject => false
  end.

(** ** ALU *)

Definition executeALU (op : string) (a b : jsval) (funct3 funct7 : field) : Z :=
  let a := toInt32 a in
  let b := toInt32 b in
  match funct3 with
  | FNum 0 => if field_is funct7 32 then a - b else a + b
  | FNum 1 => wrap32 (Z.shiftl a (Z.land b 31))
  | FNum 2 => if a <? b then 1 else 0
  | FNum 3 => if wrapU32 a <? wrapU32 b then 1 else 0
  | FNum 4 => Z.lxor a b
  | FNum 5 => if field_is funct7 32
              then Z.shiftr a (Z.land b 31)
              else Z.shiftr (wrapU32 a) (Z.land b 31)
  | FNum 6 => Z.lor a b
  | FNum 7 => Z.land a b
  | _ => 0
  end.

(** ** Processor state *)

Record signals := mkSignals {
  RegWrite : bool;
  ALUSrc : bool;
  MemWrite : bool;
  MemRead : bool;
  MemToReg : bool;
  Branch : bool;
  ALUOp : string
}.

Module Internals.
Record t := mk {
  instruction : string;
  opcode : jsval;
  rd : jsval;
  rs1 : jsval;
  rs2 : jsval;
  funct3 : jsval;
  funct7 : jsval;
  imm : jsval;
  aluResult : jsval;
  readData1 : jsval;
  readData2 : jsval;
  memData : jsval
}.

Definition set_imm (v : jsval) (i : t) : t :=
  mk (instruction i) (opcode i) (rd i) (rs1 i) (rs2 i) (funct3 i) (funct7 i)
     v (aluResult i) (readData1 i) (readData2 i) (memData i).
Definition set_aluResult (v : jsval) (i : t) : t :=
  mk (instruction i) (opcode i) (rd i) (rs1 i) (rs2 i) (funct3 i) (funct7 i)
     (imm i) v (readData1 i) (readData2 i) (memData i).
Definition set_readData1 (v : jsval) (i : t) : t :=
  mk (instruction i) (opcode i) (rd i) (rs1 i) (rs2 i) (funct3 i) (funct7 i)
     (imm i) (aluResult i) v (readData2 i) (memData i).
Definition set_readData2 (v : jsval) (i : t) : t :=
  mk (instruction i) (opcode i) (rd i) (rs1 i) (rs2 i) (funct3 i) (funct7 i)
     (imm i) (aluResult i) (readData1 i) v (memData i).
Definition set_memData (v : jsval) (i : t) : t :=
  mk (instruction i) (opcode i) (rd i) (rs1 i) (rs2 i) (funct3 i) (funct7 i)
     (imm i) (aluResult i) (readData1 i) (readData2 i) v.

Definition initial : t :=
  mk "" (JNum 0) (JNum 0) (JNum 0) (JNum 0) (JNum 0) (JNum 0)
     (JNum 0) (JNum 0) (JNum 0) (JNum 0) (JNum 0).
End Internals.

Record processor := mkProcessor {
  registers : gmap jsval jsval;
  memory : gmap jsval jsval;
  pc : Z;
  instructions : list string;
  controlSignals : signals;
  internals : Internals.t;
  executionLog : list string;
  isRunning : bool
}.

Definition set_registers (r : gmap jsval jsval) (p : processor) : processor :=
  mkProcessor r (memory p) (pc p) (instructions p) (controlSignals p)
              (internals p) (executionLog p) (isRunning p).
Definition set_memory (m : gmap jsval jsval) (p : processor) : processor :=
  mkProcessor (registers p) m (pc p) (instructions p) (controlSignals p)
              (internals p) (executionLog p) (isRunning p).
Definition set_pc (n : Z) (p : processor) : processor :=
  mkProcessor (registers p) (memory p) n (instructions p) (controlSignals p)
              (internals p) (executionLog p) (isRunning p).
Definition set_instructions (l : list string) (p : processor) : processor :=
  mkProcessor (registers p) (memory p) (pc p) l (controlSignals p)
              (internals p) (executionLog p) (isRunning p).
Definition set_controlSignals (c : signals) (p : processor) : processor :=
  mkProcessor (registers p) (memory p) (pc p) (instructions p) c
              (internals p) (executionLog p) (isRunning p).
Definition set_internals (i : Internals.t) (p : processor) : processor :=
  mkProcessor (registers p) (memory p) (pc p) (instructions p) (controlSignals p)
              i (executionLog p) (isRunning p).
Definition set_executionLog (l : list string) (p : processor) : processor :=
  mkProcessor (registers p) (memory p) (pc p) (instructions p) (controlSignals p)
              (internals p) l (isRunning p).
Definition set_isRunning (b : bool) (p : processor) : processor :=
  mkProcessor (registers p) (memory p) (pc p) (instructions p) (controlSignals p)
              (internals p) (executionLog p) b.

(** [Array(n).fill(0)]. *)
Definition zeros (n : nat) : gmap jsval jsval :=
  list_to_map (map (fun i => (JNum (Z.of_nat i), JNum 0)) (seq 0 n)).

Definition noSignals : signals :=
  mkSignals false false false false false false "00".

Definition starterProgram : list string :=
  [ "addi x1, x0, 10";
    "addi x2, x0, 20";
    "add x3, x1, x2";
    "sub x4, x2, x1" ].

(** The [processor] object as the script creates it. *)
Definition processor0 : processor :=
  mkProcessor (zeros 32) (zeros 256) 0 starterProgram noSignals
              Internals.initial [] false.

(** [arr[k]]: reading a key that was never written gives [undefined]. *)
Definition get (arr : gmap jsval jsval) (k : jsval) : jsval :=
  default JUndef (arr !! k).

(** [regs[i]]. *)
Definition operand (regs : list jsval) (i : nat) : jsval := nth i regs JUndef.

(** [regs[i] || d]. *)
Definition operand_or (regs : list jsval) (i : nat) (d : Z) : Z :=
  match operand regs i with
  | JNum z => if z =? 0 then d else z
  | JNaN | JUndef => d
  end.

(** [k !== 0]. *)
Definition not_zero (k : jsval) : bool := negb (strict_eq k (JNum 0)).

(** [Math.floor(addr / 4) % 256]; [%] takes the sign of the dividend. *)
Definition memIndexOf (addr : jsval) : jsval :=
  match addr with
  | JNum a => JNum (Z.rem (a / 4) 256)
  | JNaN | JUndef => JNaN
  end.

Definition cat (l : list string) : string := fold_right String.append "" l.

Definition addToLog (message : string) (p : processor) : processor :=
  set_executionLog (executionLog p ++ [message]) p.

(** ** Execution *)

(** The [switch (funct3)] of the branch class. *)
Definition takeBranch (funct3 : field) (val1 val2 : jsval) : bool :=
  match funct3 with
  | FNum 0 => strict_eq val1 val2
  | FNum 1 => negb (strict_eq val1 val2)
  | FNum 4 => js_lt val1 val2
  | FNum 5 => js_ge val1 val2
  | FNum 6 => toUint32 val1 <? toUint32 val2
  | FNum 7 => toUint32 val1 >=? toUint32 val2
  | _ => false
  end.

(** The body of [executeInstruction] once the instruction text has been
    fetched. *)
Definition execute (instrText : string) (p : processor) : processor :=
  let '(mkParsed mnemonic regs) := parseInstruction instrText in
  let opcodeValue := getOpcodeValue mnemonic in
  let funct3 := getFunct3 mnemonic in
  let funct7 := getFunct7 mnemonic in
  let newPC := pc p + 1 in
  let isRType := field_is opcodeValue 51 in
  let isIType := field_is opcodeValue 19 in
  let isLoad := field_is opcodeValue 3 in
  let isStore := field_is opcodeValue 35 in
  let isBranch := field_is opcodeValue 99 in
  let '(p, newPC, logMessage) :=
    if isRType then
      let rd := operand regs 0 in
      let rs1 := operand regs 1 in
      let rs2 := operand regs 2 in
      let val1 := get (registers p) rs1 in
      let val2 := get (registers p) rs2 in
      let aluResult := executeALU mnemonic val1 val2 funct3 funct7 in
      let p := if not_zero rd
               then set_registers (<[rd := JNum aluResult]> (registers p)) p
               else p in
      let logMessage :=
        cat [toUpperCase mnemonic; " x"; show rd; ", x"; show rs1; ", x"; show rs2;
             " → x"; show rd; " = "; pretty aluResult] in
      let p := set_controlSignals
                 (mkSignals true false false false false false "10") p in
      let p := set_internals (Internals.set_readData1 val1 (internals p)) p in
      let p := set_internals (Internals.set_readData2 val2 (internals p)) p in
      let p := set_internals (Internals.set_aluResult (JNum aluResult) (internals p)) p in
      (p, newPC, logMessage)
    else if isIType then
      let rd := operand regs 0 in
      let rs1 := operand regs 1 in
      let imm := operand regs 2 in
      let val1 := get (registers p) rs1 in
      let aluResult := executeALU mnemonic val1 imm funct3 funct7 in
      let p := if not_zero rd
               then set_registers (<[rd := JNum aluResult]> (registers p)) p
               else p in
      let logMessage :=
        cat [toUpperCase mnemonic; " x"; show rd; ", x"; show rs1; ", "; show imm;
             " → x"; show rd; " = "; pretty aluResult] in
      let p := set_controlSignals
                 (mkSignals true true false false false false "10") p in
      let p := set_internals (Internals.set_readData1 val1 (internals p)) p in
      let p := set_internals (Internals.set_readData2 imm (internals p)) p in
      let p := set_internals (Internals.set_imm imm (internals p)) p in
      let p := set_internals (Internals.set_aluResult (JNum aluResult) (internals p)) p in
      (p, newPC, logMessage)
    else if isLoad then
      let rd := operand regs 0 in
      let rs1 := operand regs 1 in
      let offset := operand_or regs 2 0 in
      let addr := js_add (get (registers p) rs1) (JNum offset) in
      let memIndex := memIndexOf addr in
      let memValue := get (memory p) memIndex in
      let p := if not_zero rd
               then set_registers (<[rd := memValue]> (registers p)) p
               else p in
      let logMessage :=
        cat [toUpperCase mnemonic; " x"; show rd; ", "; pretty offset; "(x"; show rs1;
             ") → x"; show rd; " = MEM["; show addr; "] = "; show memValue] in
      let p := set_controlSignals
                 (mkSignals true true false true true false "00") p in
      let p := set_internals
                 (Internals.set_readData1 (get (registers p) rs1) (internals p)) p in
      let p := set_internals (Internals.set_imm (JNum offset) (internals p)) p in
      let p := set_internals (Internals.set_aluResult addr (internals p)) p in
      let p := set_internals (Internals.set_memData memValue (internals p)) p in
      (p, newPC, logMessage)
    else if isStore then
      let rs2 := operand regs 0 in
      let rs1 := operand regs 1 in
      let offset := operand_or regs 2 0 in
      let addr := js_add (get (registers p) rs1) (JNum offset) in
      let memIndex := memIndexOf addr in
      let p := set_memory (<[memIndex := get (registers p) rs2]> (memory p)) p in
      let logMessage :=
        cat [toUpperCase mnemonic; " x"; show rs2; ", "; pretty offset; "(x"; show rs1;
             ") → MEM["; show addr; "] = "; show (get (registers p) rs2)] in
      let p := set_controlSignals
                 (mkSignals false true true false false false "00") p in
      let p := set_internals
                 (Internals.set_readData1 (get (registers p) rs1) (internals p)) p in
      let p := set_internals
                 (Internals.set_readData2 (get (registers p) rs2) (internals p)) p in
      let p := set_internals (Internals.set_imm (JNum offset) (internals p)) p in
      let p := set_internals (Internals.set_aluResult addr (internals p)) p in
      (p, newPC, logMessage)
    else if isBranch then
      let rs1 := operand regs 0 in
      let rs2 := operand regs 1 in
      let offset := operand_or regs 2 1 in
      let val1 := get (registers p) rs1 in
      let val2 := get (registers p) rs2 in
      let taken := takeBranch funct3 val1 val2 in
      let newPC := if taken then pc p + offset else newPC in
      let logMessage :=
        if taken
        then cat [toUpperCase mnemonic; " x"; show rs1; ", x"; show rs2; ", ";
                  pretty offset; " → SALTO TOMADO (PC = "; pretty newPC; ")"]
        else cat [toUpperCase mnemonic; " x"; show rs1; ", x"; show rs2; ", ";
                  pretty offset; " → SALTO NO TOMADO"] in
      let p := set_controlSignals
                 (mkSignals false false false false false true "01") p in
      let p := set_internals (Internals.set_readData1 val1 (internals p)) p in
      let p := set_internals (Internals.set_readData2 val2 (internals p)) p in
      let p := set_internals (Internals.set_imm (JNum offset) (internals p)) p in
      (p, newPC, logMessage)
    else (p, newPC, "") in
  let p := set_pc newPC p in
  addToLog (cat ["["; pretty (pc p - 1); "] "; logMessage]) p.

(** [processor.instructions[processor.pc]]; [None] stands for
    [undefined]. *)
Definition fetch (p : processor) : option string :=
  if pc p <? 0 then None else nth_error (instructions p) (Z.to_nat (pc p)).

(** [executeInstruction()].  When the fetched entry is [undefined] (a
    negative program counter) the call to [trim] raises a [TypeError]
    before anything has been modified: the result is [None]. *)
Definition executeInstruction (p : processor) : option processor :=
  if pc p >=? Z.of_nat (length (instructions p)) then
    Some (set_isRunning false (addToLog "⚠ Fin del programa" p))
  else
    match fetch p with
    | Some instrText => Some (execute instrText p)
    | None => None
    end.

(** [stepExecution()]. *)
Definition stepExecution (p : processor) : option processor :=
  if pc p <? Z.of_nat (length (instructions p))
  then executeInstruction p
  else Some p.

(** One click on the step button: an exception raised by the handler
    leaves the processor object as it was. *)
Definition step (p : processor) : processor :=
  default p (stepExecution p).

Fixpoint steps (n : nat) (p : processor) : processor :=
  match n with
  | O => p
  | S k => steps k (step p)
  end.

(** One tick of the timer that [runProgram] installs; the boolean tells
    whether the timer stays installed. *)
Definition runTick (p : processor) : processor * bool :=
  if (pc p <? Z.of_nat (length (instructions p))) && isRunning p
  then (default p (executeInstruction p), true)
  else (set_isRunning false p, false).

Definition resetProcessor (p : processor) : processor :=
  let p := set_registers (zeros 32) p in
  let p := set_memory (zeros 256) p in
  let p := set_pc 0 p in
  let p := set_executionLog [] p in
  let p := set_isRunning false p in
  let p := set_controlSignals
             (mkSignals false false false false false false "00") p in
  set_internals
    (Internals.mk "" (JNum 0) (JNum 0) (JNum 0) (JNum 0) (JNum 0) (JNum 0)
                  (JNum 0) (JNum 0) (JNum 0) (JNum 0) (JNum 0)) p.

(** [arr.splice(index, 1)]: a negative index counts from the end, an
    index past the end removes nothing. *)
Definition splice1 {A} (index : Z) (l : list A) : list A :=
  let len := Z.of_nat (length l) in
  let start := if index <? 0 then Z.max (len + index) 0 else Z.min index len in
  firstn (Z.to_nat start) l ++ skipn (S (Z.to_nat start)) l.

Definition deleteInstruction (index : Z) (p : processor) : processor :=
  let p := set_instructions (splice1 index (instructions p)) p in
  if pc p >=? Z.of_nat (length (instructions p)) then set_pc 0 p else p.

(** [addInstruction(instruction)]: an empty string is falsy. *)
Definition addInstruction (instruction : string) (p : processor) : processor :=
  match trim instruction with
  | EmptyString => p
  | t => set_instructions (instructions p ++ [t]) p
  end.

(** [runProgram()]: raises the run flag and installs the timer whose
    ticks are [runTick]. *)
Definition runProgram (p : processor) : processor := set_isRunning true p.

(** ** The page: the processor and the timers installed on it

    [runProgram] keeps the handle of its timer in a local constant: only
    the callback of that timer can remove it, and [resetProcessor] has no
    access to it.  A timer is named by the number [setInterval] returned
    for it. *)

Record page := mkPage {
  proc : processor;
  timers : list nat;
  nextTimer : nat
}.

(** The page as loaded: no timer installed. *)
Definition page0 : page := mkPage processor0 [] 0.

(** The run button: [runProgram()] raises the flag and installs a new
    timer. *)
Definition pageRun (g : page) : page :=
  mkPage (runProgram (proc g)) (nextTimer g :: timers g) (S (nextTimer g)).

(** The reset button: [resetProcessor()]; the timers stay. *)
Definition pageReset (g : page) : page :=
  mkPage (resetProcessor (proc g)) (timers g) (nextTimer g).

(** The step button. *)
Definition pageStep (g : page) : page :=
  mkPage (step (proc g)) (timers g) (nextTimer g).

(** The timer [id] fires: its callback runs if the timer is still
    installed, and removes the timer when it does not execute. *)
Definition pageTick (id : nat) (g : page) : page :=
  if existsb (Nat.eqb id) (timers g)
  then let '(q, alive) := runTick (proc g) in
       mkPage q
              (if alive then timers g
               else List.filter (fun t => negb (Nat.eqb id t)) (timers g))
              (nextTimer g)
  else g.

Inductive command : Type :=
  | Run
  | Step
  | Reset
  | Tick (id : nat).

Definition perform (c : command) (g : page) : page :=
  match c with
  | Run => pageRun g
  | Step => pageStep g
  | Reset => pageReset g
  | Tick id => pageTick id g
  end.

Definition performAll (cs : list command) (g : page) : page :=
  fold_left (fun g c => perform c g) cs g.


(** ** States and programs used as test inputs *)

Definition overflowProgram : list string :=
  [ "addi x1, x0, 2147483647";
    "addi x2, x0, 1";
    "add x3, x1, x2";
    "sub x4, x0, x1";
    "sub x5, x4, x2";
    "sub x5, x5, x2" ].

Definition storeLoadState : processor :=
  set_registers (<[JNum 5 := JNum 1234]> (<[JNum 6 := JNum 64]> (zeros 32)))
    (set_instructions ["sw x5, 0(x6)"; "lw x7, 0(x6)"] processor0).

Definition beqState (a b : Z) : processor :=
  set_registers (<[JNum 1 := JNum a]> (<[JNum 2 := JNum b]> (zeros 32)))
    (set_pc 1 (set_instructions ["addi x0, x0, 0"; "beq x1, x2, 2"] processor0)).

Definition branchZeroState : processor :=
  set_instructions ["beq x0, x0, 0"] processor0.

(** The rule as the specification words it: the program counter is reset
    when it exceeds the new length, and kept otherwise. *)
Definition removal_rule_as_stated (index : Z) (p : processor) : Prop :=
  let p' := deleteInstruction index p in
  let len' := Z.of_nat (length (instructions p')) in
  (pc p > len' -> pc p' = 0) /\ (~ pc p > len' -> pc p' = pc p).

(** ** Predicates and drivers used to state properties of whole runs *)

(** What a register or a memory cell may hold: [undefined], or an integer
    of at most 33 bits. *)
Definition stored_ok (v : jsval) : Prop :=
  match v with
  | JNum z => - 2^32 <= z < 2^32
  | JUndef => True
  | JNaN => False
  end.

(** A program none of whose instructions decodes to the branch class. *)
Definition branchFree (program : list string) : bool :=
  forallb (fun t => negb (field_is (getOpcodeValue (opcode (parseInstruction t))) 99))
          program.

(** The control-signal vectors the engine assigns, with the initial one. *)
Definition classSignals : list signals :=
  [ noSignals;
    mkSignals true false false false false false "10";
    mkSignals true true false false false false "10";
    mkSignals true true false true true false "00";
    mkSignals false true true false false false "00";
    mkSignals false false false false false true "01" ].

(** [n] ticks of the timer, stopping at the tick that removes it. *)
Fixpoint ticks (n : nat) (p : processor) : processor * bool :=
  match n with
  | O => (p, true)
  | S k => let '(q, alive) := runTick p in
           if alive then ticks k q else (q, false)
  end.

(** The keys of a lookup table. *)
Definition keys (tbl : list (string * Z)) : list string := map fst tbl.

(** Both arrays hold such values only. *)
Definition stores_ok (p : processor) : Prop :=
  map_Forall (fun _ v => stored_ok v) (registers p) /\
  map_Forall (fun _ v => stored_ok v) (memory p).

(** ** Words and separators of an instruction text *)

(** A text made of white space only. *)
Fixpoint all_spaces (s : string) : bool :=
  match s with
  | EmptyString => true
  | String c r => is_space c && all_spaces r
  end.

(** A text after which a number ends: the empty text, or one that starts
    with a character that is neither a digit nor a letter. *)
Definition ends_number (rest : string) : bool :=
  match rest with
  | EmptyString => true
  | String c _ => match digit_value 36 c with Some _ => false | None => true end
  end.

(** The digits 1 to 9. *)
Definition nonzero_digit (c : ascii) : bool :=
  let n := N_of_ascii c in ((49 <=? n) && (n <=? 57))%N.

(** Every character of the text passes the test. *)
Fixpoint string_forall (f : ascii -> bool) (s : string) : bool :=
  match s with
  | EmptyString => true
  | String c r => f c && string_forall f r
  end.

(** The characters that separate words: white space and the comma. *)
Definition sep_char (c : ascii) : bool := is_space c || Ascii.eqb c ",".

(** A word: not empty, no separator character in it. *)
Definition is_token (t : string) : bool :=
  match t with
  | EmptyString => false
  | _ => string_forall (fun c => negb (sep_char c)) t
  end.

(** A separator: separator characters only, one white space at least. *)
Definition is_separator (s : string) : bool :=
  string_forall sep_char s && negb (string_forall (fun c => Ascii.eqb c ",") s).

(** What [parseInstruction] makes of one operand word. *)
Definition operandOf (r : string) : jsval :=
  if startsWith_x r then parseInt (substring1 r) else parseInt r.

(** The operands of an instruction as written: each word preceded by its
    separator. *)
Fixpoint spell (ops : list (string * string)) : string :=
  match ops with
  | [] => EmptyString
  | (sep, t) :: rest => String.append sep (String.append t (spell rest))
  end.

(** Every operand is a word preceded by a separator. *)
Definition well_spelled (ops : list (string * string)) : bool :=
  forallb (fun o => is_separator (fst o) && is_token (snd o)) ops.

(** Separators made of white space only, as they are after the commas
    have been deleted. *)
Definition is_blank (s : string) : bool :=
  match s with
  | EmptyString => false
  | _ => all_spaces s
  end.

(** Every operand is a word preceded by white space. *)
Definition blank_spelled (ops : list (string * string)) : bool :=
  forallb (fun o => is_blank (fst o) && is_token (snd o)) ops.

(** The operands with the commas of their separators deleted. *)
Definition unpunctuate (ops : list (string * string)) : list (string * string) :=
  map (fun o => (strip_commas (fst o), snd o)) ops.

(** The operands with their words in lower case. *)
Definition lowered (ops : list (string * string)) : list (string * string) :=
  map (fun o => (fst o, toLowerCase (snd o))) ops.

(** The characters of a decimal spelling, and those of the
    [offset(xN)] notation. *)
Definition plain_char (c : ascii) : bool :=
  let n := N_of_ascii c in
  ((48 <=? n) && (n <=? 57) || (n =? 45) || (n =? 40) || (n =? 41) || (n =? 120))%N.

(** The text of a load or store written with the [offset(base)]
    notation. *)
Definition memoryText (m : string) (d off b : Z) : string :=
  String.append m
    (spell [ (" ", String "x" (pretty d));
             (", ", String.append (pretty off)
                      (String.append "(x" (String.append (pretty b) ")"))) ]).

(** ** Comparing what the tables yield *)

(** Equality of two table values. *)
Definition field_eqb (f g : field) : bool :=
  match f, g with
  | FNum a, FNum b => a =? b
  | FObject, FObject => true
  | _, _ => false
  end.

(** Two mnemonics decode to the same opcode, funct3 and funct7. *)
Definition same_fields (m1 m2 : string) : bool :=
  field_eqb (getOpcodeValue m1) (getOpcodeValue m2)
  && field_eqb (getFunct3 m1) (getFunct3 m2)
  && field_eqb (getFunct7 m1) (getFunct7 m2).

(** The finite check behind the statement on the tables: every key of
    the opcode table has a funct3 entry and one of the five class
    opcodes, and shares its three fields with no other key. *)
Definition table_checks : bool :=
  forallb (fun m1 =>
             match own funct3Map m1 with Some _ => true | None => false end
             && existsb (fun c => field_is (getOpcodeValue m1) c) [51; 19; 3; 35; 99]
             && forallb (fun m2 => implb (same_fields m1 m2) (String.eqb m1 m2))
                        (keys opcodes))
          (keys opcodes).

(** * Properties *)

(** ** The decoder on sample texts *)

Example parse_add : parseInstruction "  ADD x1,  x2, x3 " = mkParsed "add" [JNum 1; JNum 2; JNum 3].
Proof. vm_compute. reflexivity. Qed.

Example parse_sw : parseInstruction "sw x5, 0(x6)" = mkParsed "sw" [JNum 5; JNum 0].
Proof. vm_compute. reflexivity. Qed.

Example parse_hex : parseInstruction "addi x1, x0, -0x1F" = mkParsed "addi" [JNum 1; JNum 0; JNum (-31)].
Proof. vm_compute. reflexivity. Qed.

Example parse_empty : parseInstruction "" = mkParsed "" [].
Proof. vm_compute. reflexivity. Qed.

Example show_neg : show (JNum (-2147483648)) = "-2147483648".
Proof. vm_compute. reflexivity. Qed.

Example run_starter_x3 : get (registers (steps 4 processor0)) (JNum 3) = JNum 30.
Proof. vm_compute. reflexivity. Qed.

(** ** Numbers *)

Lemma wrap32_range z : - 2^31 <= wrap32 z < 2^31.
Proof. unfold wrap32. pose proof (Z.mod_pos_bound (z + 2^31) (2^32)). lia. Qed.

Lemma wrap32_id z : - 2^31 <= z < 2^31 -> wrap32 z = z.
Proof. intros H. unfold wrap32. rewrite Z.mod_small; lia. Qed.

Lemma wrapU32_neg z : - 2^31 <= z < 0 -> wrapU32 z = z + 2^32.
Proof.
  intros H. unfold wrapU32.
  rewrite <- (Z.mod_add z 1 (2^32)) by lia.
  rewrite Z.mod_small; lia.
Qed.

Lemma wrapU32_nonneg z : 0 <= z < 2^31 -> wrapU32 z = z.
Proof. intros H. unfold wrapU32. rewrite Z.mod_small; lia. Qed.

Lemma strict_eq_true v w : strict_eq v w = true <-> v = w /\ v <> JNaN.
Proof.
  destruct v, w; simpl; try (split; [discriminate | intros [? ?]; congruence]).
  - rewrite Z.eqb_eq. split; [intros ->; split; congruence | intros [[=] _]; assumption].
  - split; [split; congruence | reflexivity].
Qed.

Lemma not_zero_true k : not_zero k = true -> k <> JNum 0.
Proof. intros H ->. discriminate H. Qed.

(** ** The register file and the memory as created *)

Lemma zeros_from_lookup (a : nat) (n : nat) (k : jsval) :
  (list_to_map (map (fun i => (JNum (Z.of_nat i), JNum 0)) (seq a n))
     : gmap jsval jsval) !! k
  = match k with
    | JNum i => if decide (Z.of_nat a <= i < Z.of_nat a + Z.of_nat n)
                then Some (JNum 0) else None
    | _ => None
    end.
Proof.
  revert a. induction n as [|n IH]; intros a; simpl.
  - rewrite lookup_empty. destruct k; try reflexivity.
    destruct (decide _); [lia | reflexivity].
  - rewrite lookup_insert. destruct (decide (JNum (Z.of_nat a) = k)) as [<- | Hne].
    + destruct (decide _); [reflexivity | lia].
    + rewrite IH. destruct k as [i| |]; try reflexivity.
      assert (i <> Z.of_nat a) by congruence.
      repeat destruct (decide _); try reflexivity; lia.
Qed.

Lemma zeros_lookup (n : nat) (k : jsval) :
  zeros n !! k
  = match k with
    | JNum i => if decide (0 <= i < Z.of_nat n) then Some (JNum 0) else None
    | _ => None
    end.
Proof. unfold zeros. rewrite zeros_from_lookup. reflexivity. Qed.

(** ** What one executed instruction changes *)

Lemma fetch_in_range p text :
  fetch p = Some text -> 0 <= pc p < Z.of_nat (length (instructions p)).
Proof.
  unfold fetch. destruct (pc p <? 0) eqn:E; [discriminate |].
  intros H. apply Z.ltb_ge in E.
  assert (Z.to_nat (pc p) < length (instructions p))%nat
    by (apply nth_error_Some; congruence).
  lia.
Qed.

Lemma executeInstruction_fetch p text :
  fetch p = Some text -> executeInstruction p = Some (execute text p).
Proof.
  intros H. pose proof (fetch_in_range _ _ H) as R. unfold executeInstruction.
  destruct (pc p >=? _) eqn:E; [apply Z.geb_le in E; lia |].
  rewrite H. reflexivity.
Qed.

Lemma stepExecution_fetch p text :
  fetch p = Some text -> stepExecution p = Some (execute text p).
Proof.
  intros H. pose proof (fetch_in_range _ _ H) as R. unfold stepExecution.
  destruct (pc p <? _) eqn:E; [| apply Z.ltb_ge in E; lia].
  apply executeInstruction_fetch, H.
Qed.

(** The registers after an instruction are the registers before, or the
    registers before with one key other than 0 overwritten. *)
Lemma execute_registers text p :
  registers (execute text p) = registers p \/
  exists rd v, rd <> JNum 0 /\ registers (execute text p) = <[rd := v]> (registers p).
Proof.
  unfold execute. destruct (parseInstruction text) as [m rs].
  destruct (field_is (getOpcodeValue m) 51).
  { destruct (not_zero (operand rs 0)) eqn:E; [right | left; reflexivity].
    eexists _, _. split; [apply not_zero_true, E | reflexivity]. }
  destruct (field_is (getOpcodeValue m) 19).
  { destruct (not_zero (operand rs 0)) eqn:E; [right | left; reflexivity].
    eexists _, _. split; [apply not_zero_true, E | reflexivity]. }
  destruct (field_is (getOpcodeValue m) 3).
  { destruct (not_zero (operand rs 0)) eqn:E; [right | left; reflexivity].
    eexists _, _. split; [apply not_zero_true, E | reflexivity]. }
  destruct (field_is (getOpcodeValue m) 35); [left; reflexivity |].
  destruct (field_is (getOpcodeValue m) 99); left; reflexivity.
Qed.

Lemma execute_instructions text p : instructions (execute text p) = instructions p.
Proof.
  unfold execute. destruct (parseInstruction text) as [m rs].
  repeat match goal with
         | |- context [if ?b then _ else _] => destruct b
         end; reflexivity.
Qed.

Lemma execute_register_zero text p :
  registers (execute text p) !! JNum 0 = registers p !! JNum 0.
Proof.
  destruct (execute_registers text p) as [-> | (rd & v & Hrd & ->)];
    [reflexivity | apply lookup_insert_ne, Hrd].
Qed.

Lemma step_register_zero p : registers (step p) !! JNum 0 = registers p !! JNum 0.
Proof.
  unfold step, stepExecution, executeInstruction.
  destruct (pc p <? _); [| reflexivity].
  destruct (pc p >=? _); [reflexivity |].
  destruct (fetch p); [apply execute_register_zero | reflexivity].
Qed.

Lemma steps_register_zero n p : registers (steps n p) !! JNum 0 = registers p !! JNum 0.
Proof.
  revert p. induction n as [|n IH]; intros p; simpl; [reflexivity |].
  rewrite IH. apply step_register_zero.
Qed.

Lemma step_instructions p : instructions (step p) = instructions p.
Proof.
  unfold step, stepExecution, executeInstruction.
  destruct (pc p <? _); [| reflexivity].
  destruct (pc p >=? _); [reflexivity |].
  destruct (fetch p); [apply execute_instructions | reflexivity].
Qed.

(** ** C2: register 0 *)

(** C2.  Whatever the processor state and the program, and however many
    times the step command is issued, the entry of the register file at
    index 0 is the one it was before; started from the state the script
    creates, with any program loaded, register 0 therefore reads 0 after
    any number of steps. *)
Theorem register_zero_never_mutated :
  (forall (n : nat) (p : processor),
      registers (steps n p) !! JNum 0 = registers p !! JNum 0) /\
  (forall (n : nat) (program : list string),
      get (registers (steps n (set_instructions program processor0))) (JNum 0)
      = JNum 0).
Proof.
  split.
  - apply steps_register_zero.
  - intros n program. unfold get. rewrite steps_register_zero.
    change (registers (set_instructions program processor0)) with (zeros 32).
    rewrite zeros_lookup. reflexivity.
Qed.

(** A destination written as [x0], in each of the three classes that
    write a register. *)
Example write_to_x0_is_dropped :
  let p := steps 3 (set_instructions
                      ["addi x0, x0, 7"; "add x0, x0, x0"; "lw x0, 0(x0)"]
                      processor0) in
  registers p = zeros 32 /\ pc p = 3.
Proof. vm_compute. split; reflexivity. Qed.

(** ** C4: the starter program *)

(** C4.  From the state the script creates, whose program is
    [addi x1, x0, 10], [addi x2, x0, 20], [add x3, x1, x2],
    [sub x4, x2, x1], four executed instructions give x1 = 10, x2 = 20,
    x3 = 30, x4 = 10, pc = 4 and a trace of exactly four entries. *)
Theorem starter_program_result :
  let p := steps 4 processor0 in
  get (registers p) (JNum 1) = JNum 10 /\
  get (registers p) (JNum 2) = JNum 20 /\
  get (registers p) (JNum 3) = JNum 30 /\
  get (registers p) (JNum 4) = JNum 10 /\
  pc p = 4 /\
  length (executionLog p) = 4%nat.
Proof. repeat split; vm_compute; reflexivity. Qed.

Example starter_program_trace :
  executionLog (steps 4 processor0)
  = [ "[0] ADDI x1, x0, 10 → x1 = 10";
      "[1] ADDI x2, x0, 20 → x2 = 20";
      "[2] ADD x3, x1, x2 → x3 = 30";
      "[3] SUB x4, x2, x1 → x4 = 10" ].
Proof. vm_compute. reflexivity. Qed.

(** ** The five classes, one equation each *)

(** Unfold [execute] on a text whose parse and opcode are known, and let
    the class tests compute. *)
Ltac enter_class Hparse Hop :=
  unfold execute; rewrite Hparse, Hop; cbn [field_is Z.eqb Pos.eqb].

Section Classes.
Variables (text : string) (p : processor) (m : string) (rs : list jsval).
Hypothesis Hparse : parseInstruction text = mkParsed m rs.

(** R class: what is written and where. *)
Lemma execute_R_registers :
  getOpcodeValue m = FNum 51 ->
  registers (execute text p)
  = let result := JNum (executeALU m (get (registers p) (operand rs 1))
                                   (get (registers p) (operand rs 2))
                                   (getFunct3 m) (getFunct7 m)) in
    if not_zero (operand rs 0)
    then <[operand rs 0 := result]> (registers p)
    else registers p.
Proof.
  intros Hop. enter_class Hparse Hop.
  destruct (not_zero (operand rs 0)); reflexivity.
Qed.

(** I class (arithmetic): what is written and where. *)
Lemma execute_I_registers :
  getOpcodeValue m = FNum 19 ->
  registers (execute text p)
  = let result := JNum (executeALU m (get (registers p) (operand rs 1))
                                   (operand rs 2)
                                   (getFunct3 m) (getFunct7 m)) in
    if not_zero (operand rs 0)
    then <[operand rs 0 := result]> (registers p)
    else registers p.
Proof.
  intros Hop. enter_class Hparse Hop.
  destruct (not_zero (operand rs 0)); reflexivity.
Qed.

(** Load: the register written and the cell read. *)
Lemma execute_load_registers :
  getOpcodeValue m = FNum 3 ->
  registers (execute text p)
  = let addr := js_add (get (registers p) (operand rs 1))
                       (JNum (operand_or rs 2 0)) in
    if not_zero (operand rs 0)
    then <[operand rs 0 := get (memory p) (memIndexOf addr)]> (registers p)
    else registers p.
Proof.
  intros Hop. enter_class Hparse Hop.
  destruct (not_zero (operand rs 0)); reflexivity.
Qed.

Lemma execute_load_pc :
  getOpcodeValue m = FNum 3 -> pc (execute text p) = pc p + 1.
Proof.
  intros Hop. enter_class Hparse Hop.
  destruct (not_zero (operand rs 0)); reflexivity.
Qed.

(** Store: the cell written; registers are left alone. *)
Lemma execute_store_memory :
  getOpcodeValue m = FNum 35 ->
  memory (execute text p)
  = let addr := js_add (get (registers p) (operand rs 1))
                       (JNum (operand_or rs 2 0)) in
    <[memIndexOf addr := get (registers p) (operand rs 0)]> (memory p).
Proof.
  intros Hop. enter_class Hparse Hop. reflexivity.
Qed.

Lemma execute_store_rest :
  getOpcodeValue m = FNum 35 ->
  registers (execute text p) = registers p /\ pc (execute text p) = pc p + 1.
Proof.
  intros Hop. enter_class Hparse Hop. split; reflexivity.
Qed.

(** Branch: the next program counter. *)
Lemma execute_branch_pc :
  getOpcodeValue m = FNum 99 ->
  pc (execute text p)
  = if takeBranch (getFunct3 m) (get (registers p) (operand rs 0))
                  (get (registers p) (operand rs 1))
    then pc p + operand_or rs 2 1
    else pc p + 1.
Proof.
  intros Hop. enter_class Hparse Hop.
  destruct (takeBranch _ _ _); reflexivity.
Qed.

(** No class: only the program counter and the trace move. *)
Lemma execute_no_class :
  field_is (getOpcodeValue m) 51 = false ->
  field_is (getOpcodeValue m) 19 = false ->
  field_is (getOpcodeValue m) 3 = false ->
  field_is (getOpcodeValue m) 35 = false ->
  field_is (getOpcodeValue m) 99 = false ->
  execute text p
  = mkProcessor (registers p) (memory p) (pc p + 1) (instructions p)
                (controlSignals p) (internals p)
                (executionLog p ++ [cat ["["; pretty (pc p + 1 - 1); "] "; ""]])
                (isRunning p).
Proof.
  intros H1 H2 H3 H4 H5. unfold execute. rewrite Hparse, H1, H2, H3, H4, H5.
  reflexivity.
Qed.
End Classes.

Lemma get_insert_eq (arr : gmap jsval jsval) k v : get (<[k := v]> arr) k = v.
Proof. unfold get. rewrite lookup_insert_eq. reflexivity. Qed.

Lemma get_insert_ne (arr : gmap jsval jsval) k k' v :
  k <> k' -> get (<[k := v]> arr) k' = get arr k'.
Proof. intros H. unfold get. rewrite lookup_insert_ne by exact H. reflexivity. Qed.

(** ** C1: width of the ALU result *)

(** The first half of the statement holds: for an R or I instruction
    whose destination is not register 0, the destination afterwards holds
    what [executeALU] returned on the documented operands. *)
Lemma destination_holds_alu_result text p m rs :
  parseInstruction text = mkParsed m rs ->
  not_zero (operand rs 0) = true ->
  (getOpcodeValue m = FNum 51 ->
   get (registers (execute text p)) (operand rs 0)
   = JNum (executeALU m (get (registers p) (operand rs 1))
                      (get (registers p) (operand rs 2))
                      (getFunct3 m) (getFunct7 m))) /\
  (getOpcodeValue m = FNum 19 ->
   get (registers (execute text p)) (operand rs 0)
   = JNum (executeALU m (get (registers p) (operand rs 1)) (operand rs 2)
                      (getFunct3 m) (getFunct7 m))).
Proof.
  intros Hparse Hrd. split; intros Hop.
  - rewrite (execute_R_registers _ _ _ _ Hparse Hop). cbv zeta. rewrite Hrd.
    apply get_insert_eq.
  - rewrite (execute_I_registers _ _ _ _ Hparse Hop). cbv zeta. rewrite Hrd.
    apply get_insert_eq.
Qed.

(** The operands are brought to 32 bits, the sum and the difference are
    not. *)
Lemma executeALU_add op a b :
  executeALU op a b (FNum 0) (FNum 0) = toInt32 a + toInt32 b.
Proof. reflexivity. Qed.

Lemma executeALU_sub op a b :
  executeALU op a b (FNum 0) (FNum 32) = toInt32 a - toInt32 b.
Proof. reflexivity. Qed.

(** C1.  The program [addi x1, x0, 2147483647], [addi x2, x0, 1],
    [add x3, x1, x2] leaves 2147483648 in x3, one more than the largest
    signed 32-bit integer, where 32-bit wrap-around gives -2147483648;
    likewise the subtraction (-2147483647 - 1) - 1 leaves -2147483649
    in x5. *)
Theorem add_result_exceeds_32_bits :
  let p := steps 6 (set_instructions overflowProgram processor0) in
  get (registers p) (JNum 3) = JNum 2147483648 /\
  wrap32 (2147483647 + 1) = -2147483648 /\
  get (registers p) (JNum 5) = JNum (-2147483649) /\
  wrap32 (-2147483648 - 1) = 2147483647.
Proof. repeat split; vm_compute; reflexivity. Qed.

(** As long as the exact result fits in 32 bits the two readings agree. *)
Lemma executeALU_add_in_range op a b :
  - 2^31 <= toInt32 a + toInt32 b < 2^31 ->
  executeALU op a b (FNum 0) (FNum 0) = wrap32 (toInt32 a + toInt32 b).
Proof. intros H. rewrite wrap32_id by exact H. reflexivity. Qed.

(** ** C3: mnemonics outside the table *)

Lemma unknown_mnemonic_no_class m n :
  own opcodes m = None -> n <> 0 -> field_is (getOpcodeValue m) n = false.
Proof.
  intros H Hn. unfold getOpcodeValue, table_get. rewrite H.
  destruct (inherited m); simpl; [reflexivity |].
  destruct n; [contradiction | reflexivity | reflexivity].
Qed.

Lemma unknown_mnemonic_opcode m :
  own opcodes m = None ->
  getOpcodeValue m = if inherited m then FObject else FNum 0.
Proof. intros H. unfold getOpcodeValue, table_get. rewrite H. reflexivity. Qed.

(** Every text whose mnemonic the table does not define runs as a
    no-operation: the program counter advances by one, the trace gets
    the entry ["[pc] "] with an empty message, nothing else changes. *)
Lemma unknown_mnemonic_falls_through p text :
  fetch p = Some text ->
  own opcodes (opcode (parseInstruction text)) = None ->
  executeInstruction p
  = Some (mkProcessor (registers p) (memory p) (pc p + 1) (instructions p)
                      (controlSignals p) (internals p)
                      (executionLog p ++ [cat ["["; pretty (pc p); "] "]])
                      (isRunning p)).
Proof.
  intros Hf Hown. rewrite (executeInstruction_fetch _ _ Hf). f_equal.
  destruct (parseInstruction text) as [m rs] eqn:Hparse. simpl in Hown.
  rewrite (execute_no_class _ _ _ _ Hparse)
    by (apply unknown_mnemonic_no_class; [exact Hown | lia]).
  replace (pc p + 1 - 1) with (pc p) by lia. reflexivity.
Qed.

(** C3.  The mnemonic [constructor] is not a key of the opcode table,
    yet it does not decode to 0: the lookup finds the member of that name
    which every object inherits, and [getOpcodeValue] returns that object.
    The same happens for [__proto__]. *)
Theorem inherited_name_is_not_opcode_zero :
  let m := opcode (parseInstruction "constructor x1, x2, x3") in
  own opcodes m = None /\
  getOpcodeValue m = FObject /\
  getOpcodeValue m <> FNum 0 /\
  getOpcodeValue (opcode (parseInstruction "__proto__")) = FObject.
Proof. vm_compute. repeat split; try reflexivity. discriminate. Qed.

(** ** C5: a store followed by a load *)

Lemma parse_lw : parseInstruction "lw x7, 0(x6)" = mkParsed "lw" [JNum 7; JNum 0].
Proof. vm_compute. reflexivity. Qed.

Lemma parse_beq : parseInstruction "beq x1, x2, 2" = mkParsed "beq" [JNum 1; JNum 2; JNum 2].
Proof. vm_compute. reflexivity. Qed.

Lemma fetch_after p q n :
  instructions q = instructions p -> pc q = n -> fetch q = fetch (set_pc n p).
Proof. intros Hi Hp. unfold fetch. simpl. rewrite Hi, Hp. reflexivity. Qed.

(** C5.  In any state whose program holds [sw x5, 0(x6)] at the program
    counter and [lw x7, 0(x6)] right after it, executing the two
    instructions leaves in register 7 the value register 5 had before the
    store, whatever the registers and the memory held. *)
Theorem store_load_consistency (p : processor) :
  fetch p = Some "sw x5, 0(x6)" ->
  fetch (set_pc (pc p + 1) p) = Some "lw x7, 0(x6)" ->
  exists p1 p2 : processor,
    executeInstruction p = Some p1 /\
    executeInstruction p1 = Some p2 /\
    get (registers p2) (JNum 7) = get (registers p) (JNum 5).
Proof.
  intros Hsw Hlw.
  pose proof (execute_store_rest _ p _ _ parse_sw eq_refl) as [Hregs Hpc].
  pose proof (execute_store_memory _ p _ _ parse_sw eq_refl) as Hmem.
  set (p1 := execute "sw x5, 0(x6)" p) in *.
  assert (Hf1 : fetch p1 = Some "lw x7, 0(x6)").
  { rewrite <- Hlw. apply fetch_after; [apply execute_instructions | exact Hpc]. }
  exists p1, (execute "lw x7, 0(x6)" p1). split; [| split].
  - apply executeInstruction_fetch, Hsw.
  - apply executeInstruction_fetch, Hf1.
  - rewrite (execute_load_registers _ p1 _ _ parse_lw eq_refl).
    cbv zeta. change (not_zero (operand [JNum 7; JNum 0] 0)) with true.
    cbv iota. change (operand [JNum 7; JNum 0] 0) with (JNum 7).
    rewrite get_insert_eq, Hmem, Hregs. cbv zeta.
    change (operand [JNum 7; JNum 0] 1) with (operand [JNum 5; JNum 0] 1).
    change (operand_or [JNum 7; JNum 0] 2 0) with (operand_or [JNum 5; JNum 0] 2 0).
    apply get_insert_eq.
Qed.

Lemma store_load_consistency_witness :
  exists p1 p2 : processor,
    executeInstruction storeLoadState = Some p1 /\
    executeInstruction p1 = Some p2 /\
    get (registers p2) (JNum 7) = get (registers storeLoadState) (JNum 5).
Proof. apply (store_load_consistency storeLoadState); reflexivity. Defined.

(** The base register named in the text plays no part: [0(x6)] is read
    by [parseInt] as the number 0, which the engine takes as register
    index 0, so the cell is the one at address [registers[0] + 0]. *)
Example store_ignores_base_register :
  let p := steps 1 storeLoadState in
  get (memory p) (JNum 0) = JNum 1234 /\ get (memory p) (JNum 16) = JNum 0.
Proof. vm_compute. split; reflexivity. Qed.

(** ** C6: branch on equality *)

(** C6.  In any state whose current instruction is [beq x1, x2, 2], the
    instruction executes; if registers 1 and 2 hold the same value (a
    number, or [undefined] in both) the program counter becomes the
    current one plus 2, and if they hold different values it becomes the
    current one plus 1. *)
Theorem beq_offset_relative_to_current (p : processor) :
  fetch p = Some "beq x1, x2, 2" ->
  exists p' : processor,
    executeInstruction p = Some p' /\
    (get (registers p) (JNum 1) = get (registers p) (JNum 2) ->
     get (registers p) (JNum 1) <> JNaN ->
     pc p' = pc p + 2) /\
    (get (registers p) (JNum 1) <> get (registers p) (JNum 2) ->
     pc p' = pc p + 1).
Proof.
  intros Hf. exists (execute "beq x1, x2, 2" p).
  split; [apply executeInstruction_fetch, Hf |].
  rewrite (execute_branch_pc _ p _ _ parse_beq eq_refl).
  change (takeBranch (getFunct3 "beq") (get (registers p) (operand [JNum 1; JNum 2; JNum 2] 0))
                     (get (registers p) (operand [JNum 1; JNum 2; JNum 2] 1)))
    with (strict_eq (get (registers p) (JNum 1)) (get (registers p) (JNum 2))).
  change (operand_or [JNum 1; JNum 2; JNum 2] 2 1) with 2.
  split.
  - intros Heq Hnan.
    rewrite (proj2 (strict_eq_true _ _) (conj Heq Hnan)). reflexivity.
  - intros Hne.
    destruct (strict_eq (get (registers p) (JNum 1)) (get (registers p) (JNum 2))) eqn:E;
      [| reflexivity].
    apply strict_eq_true in E as [E _]. contradiction.
Qed.

Lemma beq_offset_relative_to_current_witness :
  (exists p' : processor,
      executeInstruction (beqState 7 7) = Some p' /\ pc p' = pc (beqState 7 7) + 2) /\
  (exists p' : processor,
      executeInstruction (beqState 7 8) = Some p' /\ pc p' = pc (beqState 7 8) + 1).
Proof.
  split.
  - destruct (beq_offset_relative_to_current (beqState 7 7) eq_refl)
      as (p' & He & Heq & _).
    exists p'. split; [exact He |].
    apply Heq; [vm_compute; reflexivity | vm_compute; discriminate].
  - destruct (beq_offset_relative_to_current (beqState 7 8) eq_refl)
      as (p' & He & _ & Hne).
    exists p'. split; [exact He |].
    apply Hne. vm_compute. discriminate.
Defined.

Example beq_taken_and_not_taken :
  pc (step (beqState 7 7)) = 3 /\ pc (step (beqState 7 8)) = 2.
Proof. vm_compute. split; reflexivity. Qed.

(** ** C7: unsigned comparisons *)

(** C7.  For a negative 32-bit value [a] and a non-negative 32-bit value
    [b], the three unsigned comparisons rank [a] above [b]: [sltu] answers
    1 for [b < a] and 0 for [a < b], [bltu] is taken for [(b, a)] and not
    for [(a, b)], [bgeu] is taken for [(a, b)] and not for [(b, a)]. *)
Theorem unsigned_comparison_ranks_negative_above (a b : Z) :
  - 2^31 <= a < 0 ->
  0 <= b < 2^31 ->
  executeALU "sltu" (JNum b) (JNum a) (getFunct3 "sltu") (getFunct7 "sltu") = 1 /\
  executeALU "sltu" (JNum a) (JNum b) (getFunct3 "sltu") (getFunct7 "sltu") = 0 /\
  takeBranch (getFunct3 "bltu") (JNum b) (JNum a) = true /\
  takeBranch (getFunct3 "bltu") (JNum a) (JNum b) = false /\
  takeBranch (getFunct3 "bgeu") (JNum a) (JNum b) = true /\
  takeBranch (getFunct3 "bgeu") (JNum b) (JNum a) = false.
Proof.
  intros Ha Hb.
  change (getFunct3 "sltu") with (FNum 3).
  change (getFunct3 "bltu") with (FNum 6).
  change (getFunct3 "bgeu") with (FNum 7).
  cbn [executeALU takeBranch toInt32 toUint32].
  rewrite (wrap32_id a), (wrap32_id b) by lia.
  rewrite (wrapU32_neg a), (wrapU32_nonneg b) by lia.
  assert (Hlt : (b <? a + 2^32) = true) by (apply Z.ltb_lt; lia).
  assert (Hge : (a + 2^32 <? b) = false) by (apply Z.ltb_ge; lia).
  rewrite Hlt, Hge.
  repeat split; try reflexivity.
  - rewrite Z.geb_leb. apply Z.leb_le. lia.
  - rewrite Z.geb_leb. apply Z.leb_gt. lia.
Qed.

Lemma unsigned_comparison_ranks_negative_above_witness :
  executeALU "sltu" (JNum 1) (JNum (-1)) (getFunct3 "sltu") (getFunct7 "sltu") = 1 /\
  executeALU "sltu" (JNum (-1)) (JNum 1) (getFunct3 "sltu") (getFunct7 "sltu") = 0 /\
  takeBranch (getFunct3 "bltu") (JNum 1) (JNum (-1)) = true /\
  takeBranch (getFunct3 "bltu") (JNum (-1)) (JNum 1) = false /\
  takeBranch (getFunct3 "bgeu") (JNum (-1)) (JNum 1) = true /\
  takeBranch (getFunct3 "bgeu") (JNum 1) (JNum (-1)) = false.
Proof. apply (unsigned_comparison_ranks_negative_above (-1) 1); lia. Defined.

(** The same on whole instructions: x1 = -1, x2 = 1. *)
Example unsigned_instructions :
  let p0 := set_instructions
              [ "addi x1, x0, -1"; "addi x2, x0, 1";
                "sltu x3, x2, x1"; "sltu x4, x1, x2";
                "bltu x2, x1, 2"; "addi x5, x0, 1";
                "bgeu x2, x1, 2"; "addi x6, x0, 1" ] processor0 in
  let p := steps 7 p0 in
  get (registers p) (JNum 3) = JNum 1 /\
  get (registers p) (JNum 4) = JNum 0 /\
  get (registers p) (JNum 5) = JNum 0 /\
  get (registers p) (JNum 6) = JNum 1 /\
  pc p = 8.
Proof. repeat split; vm_compute; reflexivity. Qed.

(** ** C8: reset *)


(** After the restart both timers are installed, and each of them
    executes an instruction at each of its ticks. *)
Example restarted_run_has_two_timers :
  let g := performAll [Tick 0%nat; Tick 0%nat; Reset; Run; Tick 0%nat; Tick 1%nat]
                      (pageRun page0) in
  timers g = [1%nat; 0%nat] /\ pc (proc g) = 2 /\ isRunning (proc g) = true.
Proof. repeat split; vm_compute; reflexivity. Qed.



Example reset_after_run :
  resetProcessor (steps 4 processor0) = processor0.
Proof. reflexivity. Qed.

(** ** C9: removing an instruction *)

(** With the program counter on the last of four instructions, removing
    the first one leaves three; the counter, 3, does not exceed 3, and is
    reset all the same. *)
Lemma removal_at_new_length_resets :
  ~ removal_rule_as_stated 0 (steps 3 processor0).
Proof.
  unfold removal_rule_as_stated. intros [_ H].
  assert (E : pc (steps 3 processor0) = 3) by (vm_compute; reflexivity).
  assert (E' : pc (deleteInstruction 0 (steps 3 processor0)) = 0)
    by (vm_compute; reflexivity).
  assert (L : length (instructions (deleteInstruction 0 (steps 3 processor0))) = 3%nat)
    by (vm_compute; reflexivity).
  cbv zeta in H. rewrite E, E', L in H.
  assert (0 = 3) by (apply H; lia). lia.
Qed.

(** C9 (as the code has it).  After a removal the program counter is 0
    when it was at or beyond the new length, and is unchanged when it was
    below the new length; the program is the old one without the entry at
    the given index. *)
Theorem removal_resets_pc_at_or_beyond_end (index : Z) (p : processor) :
  let p' := deleteInstruction index p in
  let len' := Z.of_nat (length (instructions p')) in
  instructions p' = splice1 index (instructions p) /\
  pc p' = (if pc p >=? len' then 0 else pc p).
Proof.
  unfold deleteInstruction. cbv zeta.
  change (pc (set_instructions (splice1 index (instructions p)) p)) with (pc p).
  change (instructions (set_instructions (splice1 index (instructions p)) p))
    with (splice1 index (instructions p)).
  destruct (pc p >=? Z.of_nat (length (splice1 index (instructions p)))) eqn:E;
    simpl; rewrite E; split; reflexivity.
Qed.

(** ** C10: a branch offset written as 0 *)

(** C10.  For a branch instruction whose third operand is the number 0,
    the offset used is 1: the instruction executes, the program counter
    advances by 1 whether or not the branch is taken, the offset recorded
    is 1, and the resulting state is the one the same instruction gives
    with the third operand written as 1 or left out. *)
Theorem branch_offset_zero_is_one
        (p : processor) (text : string) (m : string) (rs : list jsval) :
  fetch p = Some text ->
  parseInstruction text = mkParsed m rs ->
  getOpcodeValue m = FNum 99 ->
  operand rs 2 = JNum 0 ->
  exists p' : processor,
    executeInstruction p = Some p' /\
    pc p' = pc p + 1 /\
    Internals.imm (internals p') = JNum 1 /\
    (forall text1 : string,
        parseInstruction text1 = mkParsed m [operand rs 0; operand rs 1; JNum 1] ->
        execute text1 p = p') /\
    (forall text2 : string,
        parseInstruction text2 = mkParsed m [operand rs 0; operand rs 1] ->
        execute text2 p = p').
Proof.
  intros Hf Hparse Hop Hz.
  assert (Hoff : operand_or rs 2 1 = 1) by (unfold operand_or; rewrite Hz; reflexivity).
  exists (execute text p). split; [apply executeInstruction_fetch, Hf |].
  split.
  { rewrite (execute_branch_pc _ p _ _ Hparse Hop), Hoff.
    destruct (takeBranch _ _ _); reflexivity. }
  split.
  { unfold execute. rewrite Hparse, Hop, Hoff. cbn [field_is Z.eqb Pos.eqb].
    destruct (takeBranch _ _ _); reflexivity. }
  split; intros t Ht; unfold execute; rewrite Hparse, Ht, Hop, Hoff; reflexivity.
Qed.

Lemma branch_offset_zero_is_one_witness :
  exists p' : processor,
    executeInstruction branchZeroState = Some p' /\
    pc p' = pc branchZeroState + 1 /\
    Internals.imm (internals p') = JNum 1 /\
    (forall text1 : string,
        parseInstruction text1
        = mkParsed "beq" [operand [JNum 0; JNum 0; JNum 0] 0;
                          operand [JNum 0; JNum 0; JNum 0] 1; JNum 1] ->
        execute text1 branchZeroState = p') /\
    (forall text2 : string,
        parseInstruction text2
        = mkParsed "beq" [operand [JNum 0; JNum 0; JNum 0] 0;
                          operand [JNum 0; JNum 0; JNum 0] 1] ->
        execute text2 branchZeroState = p').
Proof.
  apply (branch_offset_zero_is_one branchZeroState "beq x0, x0, 0" "beq"
                                   [JNum 0; JNum 0; JNum 0]);
    vm_compute; reflexivity.
Defined.

Example branch_zero_same_as_one_and_absent :
  executionLog (execute "beq x0, x0, 0" branchZeroState)
  = ["[0] BEQ x0, x0, 1 → SALTO TOMADO (PC = 1)"] /\
  executionLog (execute "beq x0, x0, 1" branchZeroState)
  = ["[0] BEQ x0, x0, 1 → SALTO TOMADO (PC = 1)"] /\
  executionLog (execute "beq x0, x0" branchZeroState)
  = ["[0] BEQ x0, x0, 1 → SALTO TOMADO (PC = 1)"] /\
  pc (execute "beq x0, x0, 0" branchZeroState) = 1.
Proof. repeat split; vm_compute; reflexivity. Qed.

(** * Further properties of the engine *)

(** ** Arithmetic modulo 2^32 *)

Lemma wrap32_add_multiple z k : wrap32 (z + k * 2^32) = wrap32 z.
Proof.
  unfold wrap32. replace (z + k * 2^32 + 2^31) with (z + 2^31 + k * 2^32) by lia.
  rewrite Z.mod_add by lia. reflexivity.
Qed.

Lemma wrap32_decompose z : exists k, wrap32 z = z + k * 2^32.
Proof.
  exists (- ((z + 2^31) / 2^32)). unfold wrap32.
  rewrite Z.mod_eq by lia. lia.
Qed.

Lemma wrap32_mod32 z : wrap32 z mod 32 = z mod 32.
Proof.
  destruct (wrap32_decompose z) as [k ->].
  replace (z + k * 2^32) with (z + (k * 2^27) * 32) by lia.
  apply Z.mod_add. lia.
Qed.

Lemma land_31 z : Z.land z 31 = z mod 32.
Proof. change 31 with (Z.ones 5). rewrite Z.land_ones by lia. reflexivity. Qed.

Lemma shift_amount_range z : 0 <= Z.land z 31 < 32.
Proof. rewrite land_31. apply Z.mod_pos_bound. lia. Qed.

(** X1.  Whatever integers the two operands are, the sum and the
    difference returned by the ALU agree modulo 2^32 with the exact sum
    and difference of the operands: bringing the result to 32 bits gives
    the wrapped result. *)
Theorem alu_add_sub_congruent (op : string) (a b : Z) :
  wrap32 (executeALU op (JNum a) (JNum b) (FNum 0) (FNum 0)) = wrap32 (a + b) /\
  wrap32 (executeALU op (JNum a) (JNum b) (FNum 0) (FNum 32)) = wrap32 (a - b).
Proof.
  rewrite executeALU_add, executeALU_sub. cbn [toInt32].
  destruct (wrap32_decompose a) as [ka ->], (wrap32_decompose b) as [kb ->].
  split.
  - replace (a + ka * 2^32 + (b + kb * 2^32)) with (a + b + (ka + kb) * 2^32) by lia.
    apply wrap32_add_multiple.
  - replace (a + ka * 2^32 - (b + kb * 2^32)) with (a - b + (ka - kb) * 2^32) by lia.
    apply wrap32_add_multiple.
Qed.

(** X2.  A shift uses the low five bits of its second operand only:
    shifting by [b] and by [b + 32] is the same, for the left shift and
    for both right shifts. *)
Theorem alu_shift_amount_mod_32 (op : string) (a : jsval) (b : Z) (funct7 : field) :
  executeALU op a (JNum (b + 32)) (FNum 1) funct7
  = executeALU op a (JNum b) (FNum 1) funct7 /\
  executeALU op a (JNum (b + 32)) (FNum 5) funct7
  = executeALU op a (JNum b) (FNum 5) funct7.
Proof.
  assert (E : Z.land (toInt32 (JNum (b + 32))) 31 = Z.land (toInt32 (JNum b)) 31).
  { cbn [toInt32]. rewrite !land_31, !wrap32_mod32.
    replace (b + 32) with (b + 1 * 32) by lia. apply Z.mod_add. lia. }
  unfold executeALU. cbv zeta. rewrite E. split; reflexivity.
Qed.

(** ** Range of the ALU results *)

Lemma signed32_iff_shiftr z :
  - 2^31 <= z < 2^31 <-> Z.shiftr z 31 = 0 \/ Z.shiftr z 31 = -1.
Proof.
  rewrite Z.shiftr_div_pow2 by lia.
  pose proof (Z.div_mod z (2^31) ltac:(lia)) as E.
  pose proof (Z.mod_pos_bound z (2^31) ltac:(lia)) as B.
  split; [intros H | intros [H | H]]; lia.
Qed.

Lemma sign_word_cases s t :
  (s = 0 \/ s = -1) -> (t = 0 \/ t = -1) ->
  (Z.lxor s t = 0 \/ Z.lxor s t = -1) /\
  (Z.lor s t = 0 \/ Z.lor s t = -1) /\
  (Z.land s t = 0 \/ Z.land s t = -1).
Proof. intros [-> | ->] [-> | ->]; cbn; auto. Qed.

Lemma bitwise_signed32 a b :
  - 2^31 <= a < 2^31 -> - 2^31 <= b < 2^31 ->
  - 2^31 <= Z.lxor a b < 2^31 /\
  - 2^31 <= Z.lor a b < 2^31 /\
  - 2^31 <= Z.land a b < 2^31.
Proof.
  rewrite !signed32_iff_shiftr, Z.shiftr_lxor, Z.shiftr_lor, Z.shiftr_land.
  apply sign_word_cases.
Qed.

Lemma shiftr_signed32 a n : - 2^31 <= a < 2^31 -> 0 <= n -> - 2^31 <= Z.shiftr a n < 2^31.
Proof.
  intros Ha Hn. rewrite Z.shiftr_div_pow2 by exact Hn.
  assert (0 < 2^n) by (apply Z.pow_pos_nonneg; lia).
  split.
  - apply Z.div_le_lower_bound; [lia | nia].
  - apply Z.div_lt_upper_bound; [lia | nia].
Qed.

Lemma shiftr_unsigned32 a n : 0 <= a < 2^32 -> 0 <= n -> 0 <= Z.shiftr a n < 2^32.
Proof.
  intros Ha Hn. rewrite Z.shiftr_div_pow2 by exact Hn.
  assert (0 < 2^n) by (apply Z.pow_pos_nonneg; lia).
  split.
  - apply Z.div_pos; lia.
  - apply Z.div_lt_upper_bound; [lia | nia].
Qed.

Lemma toInt32_range v : - 2^31 <= toInt32 v < 2^31.
Proof. destruct v; cbn [toInt32]; [apply wrap32_range | lia | lia]. Qed.

Lemma wrapU32_range z : 0 <= wrapU32 z < 2^32.
Proof. unfold wrapU32. apply Z.mod_pos_bound. lia. Qed.

(** Case analysis on the value [switch (funct3)] dispatches on. *)
Ltac funct3_cases f :=
  destruct f as [[|[[[?|?|]|[?|?|]|]|[[?|?|]|[?|?|]|]|]|?]|].

Lemma executeALU_ranges (op : string) (a b : jsval) (funct3 funct7 : field) :
  match funct3 with
  | FNum 0 => - 2^32 <= executeALU op a b funct3 funct7 < 2^32
  | FNum 5 => if field_is funct7 32
              then - 2^31 <= executeALU op a b funct3 funct7 < 2^31
              else 0 <= executeALU op a b funct3 funct7 < 2^32
  | _ => - 2^31 <= executeALU op a b funct3 funct7 < 2^31
  end.
Proof.
  pose proof (toInt32_range a) as Ha. pose proof (toInt32_range b) as Hb.
  pose proof (bitwise_signed32 _ _ Ha Hb) as (Hx & Ho & Hn).
  pose proof (shift_amount_range (toInt32 b)) as Hs.
  pose proof (shiftr_signed32 _ (Z.land (toInt32 b) 31) Ha ltac:(lia)) as Hsra.
  pose proof (shiftr_unsigned32 _ (Z.land (toInt32 b) 31)
                (wrapU32_range (toInt32 a)) ltac:(lia)) as Hsrl.
  pose proof (wrap32_range (Z.shiftl (toInt32 a) (Z.land (toInt32 b) 31))) as Hsll.
  unfold executeALU. cbv zeta.
  funct3_cases funct3; cbn match;
    repeat match goal with
           | |- context [if ?c then _ else _] => destruct c
           end;
    lia.
Qed.

Lemma executeALU_bound (op : string) (a b : jsval) (funct3 funct7 : field) :
  - 2^32 <= executeALU op a b funct3 funct7 < 2^32.
Proof.
  pose proof (executeALU_ranges op a b funct3 funct7) as H.
  funct3_cases funct3; try lia.
  destruct (field_is funct7 32); lia.
Qed.

(** X3.  The width of what the ALU returns, by function: the sum and the
    difference (funct3 = 0) are integers of at most 33 bits; the right
    shift (funct3 = 5) is a signed 32-bit integer when arithmetic and an
    unsigned 32-bit integer, possibly above the signed range, when
    logical; every other function, known or not, returns a signed 32-bit
    integer. *)
Theorem alu_result_ranges (op : string) (a b : jsval) (funct3 funct7 : field) :
  match funct3 with
  | FNum 0 => - 2^32 <= executeALU op a b funct3 funct7 < 2^32
  | FNum 5 => if field_is funct7 32
              then - 2^31 <= executeALU op a b funct3 funct7 < 2^31
              else 0 <= executeALU op a b funct3 funct7 < 2^32
  | _ => - 2^31 <= executeALU op a b funct3 funct7 < 2^31
  end.
Proof. apply executeALU_ranges. Qed.

(** A logical right shift by 0 of a negative value leaves the signed
    range. *)
Example srl_leaves_signed_range :
  executeALU "srl" (JNum (-1)) (JNum 0) (getFunct3 "srl") (getFunct7 "srl") = 2^32 - 1.
Proof. vm_compute. reflexivity. Qed.

(** ** What the registers and the memory can hold *)

(** The two stores after an instruction, in terms of the stores before. *)
Lemma execute_effect text p :
  (registers (execute text p) = registers p \/
   (exists rd op a b f3 f7,
       registers (execute text p)
       = <[rd := JNum (executeALU op a b f3 f7)]> (registers p)) \/
   (exists rd idx,
       registers (execute text p) = <[rd := get (memory p) idx]> (registers p))) /\
  (memory (execute text p) = memory p \/
   exists idx k,
     memory (execute text p) = <[idx := get (registers p) k]> (memory p)).
Proof.
  unfold execute. destruct (parseInstruction text) as [m rs].
  destruct (field_is (getOpcodeValue m) 51).
  { destruct (not_zero (operand rs 0)); (split; [| left; reflexivity]);
      [right; left | left; reflexivity].
    do 6 eexists. reflexivity. }
  destruct (field_is (getOpcodeValue m) 19).
  { destruct (not_zero (operand rs 0)); (split; [| left; reflexivity]);
      [right; left | left; reflexivity].
    do 6 eexists. reflexivity. }
  destruct (field_is (getOpcodeValue m) 3).
  { destruct (not_zero (operand rs 0)); (split; [| left; reflexivity]);
      [right; right | left; reflexivity].
    do 2 eexists. reflexivity. }
  destruct (field_is (getOpcodeValue m) 35).
  { split; [left; reflexivity | right]. do 2 eexists. reflexivity. }
  destruct (field_is (getOpcodeValue m) 99); split; left; reflexivity.
Qed.


Lemma get_stored_ok (arr : gmap jsval jsval) k :
  map_Forall (fun _ v => stored_ok v) arr -> stored_ok (get arr k).
Proof.
  intros H. unfold get. destruct (arr !! k) as [v|] eqn:E; [| exact I].
  exact (H k v E).
Qed.

Lemma execute_stores_ok text p : stores_ok p -> stores_ok (execute text p).
Proof.
  intros [Hr Hm]. destruct (execute_effect text p) as [Er Em]. split.
  - destruct Er as [-> | [(rd & op & a & b & f3 & f7 & ->) | (rd & idx & ->)]].
    + exact Hr.
    + apply map_Forall_insert_2; [| exact Hr].
      apply (executeALU_bound op a b f3 f7).
    + apply map_Forall_insert_2; [| exact Hr]. apply get_stored_ok, Hm.
  - destruct Em as [-> | (idx & k & ->)]; [exact Hm |].
    apply map_Forall_insert_2; [| exact Hm]. apply get_stored_ok, Hr.
Qed.

Lemma step_stores_ok p : stores_ok p -> stores_ok (step p).
Proof.
  intros H. unfold step, stepExecution, executeInstruction.
  destruct (pc p <? _); [| exact H].
  destruct (pc p >=? _); [exact H |].
  destruct (fetch p); [apply execute_stores_ok, H | exact H].
Qed.

Lemma steps_stores_ok n p : stores_ok p -> stores_ok (steps n p).
Proof.
  revert p. induction n as [|n IH]; intros p H; [exact H |].
  apply IH, step_stores_ok, H.
Qed.

Lemma zeros_stored_ok n : map_Forall (fun _ v => stored_ok v) (zeros n).
Proof.
  intros k v. rewrite zeros_lookup. destruct k; try discriminate.
  destruct (decide _); [| discriminate]. intros [= <-]. cbn. lia.
Qed.

(** X4.  Started from the state the script creates, with any program,
    the registers and the memory never hold [NaN], and never an integer
    outside [-2^32, 2^32): after any number of steps every value stored
    under any key of either array is [undefined] or such an integer. *)
Theorem stored_values_stay_in_range (n : nat) (program : list string) (k : jsval) :
  stored_ok (get (registers (steps n (set_instructions program processor0))) k) /\
  stored_ok (get (memory (steps n (set_instructions program processor0))) k).
Proof.
  assert (H : stores_ok (steps n (set_instructions program processor0))).
  { apply steps_stores_ok. split; [apply (zeros_stored_ok 32) | apply (zeros_stored_ok 256)]. }
  destruct H as [Hr Hm]. split; apply get_stored_ok; assumption.
Qed.

(** The bound is reached, and [undefined] does get stored. *)
Example stored_values_extremes :
  let p := steps 4 (set_instructions
                      [ "addi x1, x0, -2147483648"; "add x2, x1, x1";
                        "lw x3, x0, -4"; "sw x40, x0, 0" ] processor0) in
  get (registers p) (JNum 2) = JNum (- 2^32) /\
  get (registers p) (JNum 3) = JUndef /\
  memory p !! JNum 0 = Some JUndef.
Proof. repeat split; vm_compute; reflexivity. Qed.

(** ** Addresses and memory cells *)

(** X5.  A non-negative byte address selects one of the 256 cells; the
    four bytes of a word select the same cell, and so do two addresses
    1024 apart. *)
Theorem memIndex_of_nonnegative_address (a : Z) :
  0 <= a ->
  exists i : Z,
    memIndexOf (JNum a) = JNum i /\ 0 <= i < 256 /\
    memIndexOf (JNum (a + 1024)) = JNum i /\
    (forall r, 0 <= r < 4 -> memIndexOf (JNum (4 * (a / 4) + r)) = JNum i).
Proof.
  intros Ha. exists ((a / 4) mod 256).
  assert (Hq : 0 <= a / 4) by (apply Z.div_pos; lia).
  assert (R : forall q, 0 <= q -> Z.rem q 256 = q mod 256)
    by (intros q Hq'; apply Z.rem_mod_nonneg; lia).
  cbn [memIndexOf]. repeat split.
  - rewrite R by exact Hq. reflexivity.
  - apply Z.mod_pos_bound. lia.
  - apply Z.mod_pos_bound. lia.
  - replace (a + 1024) with (a + 256 * 4) by lia. rewrite Z.div_add by lia.
    rewrite R by lia. replace (a / 4 + 256) with (a / 4 + 1 * 256) by lia.
    rewrite Z.mod_add by lia. reflexivity.
  - intros r Hr. replace (4 * (a / 4) + r) with (r + (a / 4) * 4) by lia.
    rewrite Z.div_add by lia. rewrite (Z.div_small r 4) by lia.
    rewrite R by lia. reflexivity.
Qed.

Lemma memIndex_of_nonnegative_address_witness :
  exists i : Z,
    memIndexOf (JNum 6) = JNum i /\ 0 <= i < 256 /\
    memIndexOf (JNum (6 + 1024)) = JNum i /\
    (forall r, 0 <= r < 4 -> memIndexOf (JNum (4 * (6 / 4) + r)) = JNum i).
Proof. apply (memIndex_of_nonnegative_address 6). lia. Defined.

(** X6.  A negative byte address does not wrap into the memory: the
    index computed for it is never positive, and it is 0 only when the
    word number is a multiple of 256. *)
Theorem memIndex_of_negative_address (a : Z) :
  a < 0 ->
  exists i : Z,
    memIndexOf (JNum a) = JNum i /\ - 256 < i <= 0 /\
    (i = 0 <-> (a / 4) mod 256 = 0).
Proof.
  intros Ha. exists (Z.rem (a / 4) 256). split; [reflexivity |].
  assert (Hq : a / 4 < 0) by (apply Z.div_lt_upper_bound; lia).
  pose proof (Z.rem_bound_pos_neg (a / 4) 256 ltac:(lia) ltac:(lia)) as B.
  pose proof (Z.rem_mod_eq_0 (a / 4) 256 ltac:(lia)) as Q.
  split; [lia | exact Q].
Qed.

Lemma memIndex_of_negative_address_witness :
  exists i : Z,
    memIndexOf (JNum (-4)) = JNum i /\ - 256 < i <= 0 /\
    (i = 0 <-> ((-4) / 4) mod 256 = 0).
Proof. apply (memIndex_of_negative_address (-4)). lia. Defined.

(** A store below address 0 lands outside the 256 cells and is read
    back from there. *)
Example store_at_negative_address :
  let p := steps 3 (set_instructions
                      [ "addi x1, x0, 77"; "sw x1, x0, -4"; "lw x2, x0, -4" ]
                      processor0) in
  memory p !! JNum (-1) = Some (JNum 77) /\
  get (registers p) (JNum 2) = JNum 77 /\
  (forall i, 0 <= i < 256 -> memory p !! JNum i = Some (JNum 0)).
Proof.
  split; [vm_compute; reflexivity |]. split; [vm_compute; reflexivity |].
  intros i Hi. cbv zeta.
  change (memory (steps 3 (set_instructions
                      [ "addi x1, x0, 77"; "sw x1, x0, -4"; "lw x2, x0, -4" ]
                      processor0)))
    with (<[JNum (-1) := JNum 77]> (zeros 256)).
  rewrite lookup_insert_ne by (intros [=]; lia).
  rewrite zeros_lookup. destruct (decide _); [reflexivity | lia].
Qed.

(** ** Frame properties *)

(** X7.  Only an instruction of the store class writes the memory, and
    it writes one cell: the memory after an instruction is the memory
    before, with, for a store, the value of the register named by the
    first operand put at the index computed from the second and third
    operands. *)
Theorem memory_written_only_by_store (text : string) (p : processor) :
  let m := opcode (parseInstruction text) in
  let rs := regs (parseInstruction text) in
  memory (execute text p)
  = if field_is (getOpcodeValue m) 35
    then <[memIndexOf (js_add (get (registers p) (operand rs 1))
                              (JNum (operand_or rs 2 0)))
           := get (registers p) (operand rs 0)]> (memory p)
    else memory p.
Proof.
  unfold execute. destruct (parseInstruction text) as [m rs]. cbn [opcode regs]. cbv zeta.
  destruct (getOpcodeValue m) as [z|]; cbn [field_is]; [| reflexivity].
  destruct (Z.eqb_spec z 51) as [-> | _];
    [cbn [Z.eqb Pos.eqb]; destruct (not_zero (operand rs 0)); reflexivity |].
  destruct (Z.eqb_spec z 19) as [-> | _];
    [cbn [Z.eqb Pos.eqb]; destruct (not_zero (operand rs 0)); reflexivity |].
  destruct (Z.eqb_spec z 3) as [-> | _];
    [cbn [Z.eqb Pos.eqb]; destruct (not_zero (operand rs 0)); reflexivity |].
  destruct (Z.eqb_spec z 35) as [-> | _]; [reflexivity |].
  destruct (Z.eqb_spec z 99) as [-> | _]; [| reflexivity].
  destruct (takeBranch _ _ _); reflexivity.
Qed.

(** A store also writes under keys that are not cells: with an undefined
    base register the index is [NaN]. *)
Example store_with_undefined_base :
  memory (execute "sw x1, x40, 0" processor0) !! JNaN = Some (JNum 0).
Proof. vm_compute. reflexivity. Qed.

(** X8.  An instruction changes at most the register named by its first
    operand: every other key of the register file keeps its entry. *)
Theorem registers_changed_only_at_destination
        (text : string) (p : processor) (k : jsval) :
  k <> operand (regs (parseInstruction text)) 0 ->
  registers (execute text p) !! k = registers p !! k.
Proof.
  intros Hk. unfold execute.
  destruct (parseInstruction text) as [m rs]. cbn [regs] in Hk.
  repeat match goal with
         | |- context [if field_is ?f ?n then _ else _] => destruct (field_is f n)
         end;
    try reflexivity;
    (destruct (not_zero (operand rs 0)); [| reflexivity]);
    apply lookup_insert_ne; congruence.
Qed.

Lemma registers_changed_only_at_destination_witness :
  registers (execute "add x3, x1, x2" processor0) !! JNum 4
  = registers processor0 !! JNum 4.
Proof.
  apply (registers_changed_only_at_destination "add x3, x1, x2" processor0 (JNum 4)).
  vm_compute. discriminate.
Defined.

(** X9.  The width and signedness that the mnemonics of the load and
    store classes name are ignored: two stores with the same operands
    leave the same memory, two loads with the same operands leave the
    same registers, whichever of [sw]/[sh]/[sb] or
    [lw]/[lh]/[lb]/[lhu]/[lbu] they are. *)
Theorem load_store_width_ignored
        (text1 text2 : string) (m1 m2 : string) (rs : list jsval) (p : processor) :
  parseInstruction text1 = mkParsed m1 rs ->
  parseInstruction text2 = mkParsed m2 rs ->
  (getOpcodeValue m1 = FNum 35 -> getOpcodeValue m2 = FNum 35 ->
   memory (execute text1 p) = memory (execute text2 p)) /\
  (getOpcodeValue m1 = FNum 3 -> getOpcodeValue m2 = FNum 3 ->
   registers (execute text1 p) = registers (execute text2 p)).
Proof.
  intros H1 H2. split; intros Ho1 Ho2.
  - rewrite (execute_store_memory _ p _ _ H1 Ho1), (execute_store_memory _ p _ _ H2 Ho2).
    reflexivity.
  - rewrite (execute_load_registers _ p _ _ H1 Ho1), (execute_load_registers _ p _ _ H2 Ho2).
    reflexivity.
Qed.

Lemma load_store_width_ignored_witness :
  ((getOpcodeValue "sb" = FNum 35 -> getOpcodeValue "sw" = FNum 35 ->
    memory (execute "sb x5, x0, 8" processor0) = memory (execute "sw x5, x0, 8" processor0)) /\
   (getOpcodeValue "sb" = FNum 3 -> getOpcodeValue "sw" = FNum 3 ->
    registers (execute "sb x5, x0, 8" processor0)
    = registers (execute "sw x5, x0, 8" processor0))) /\
  registers (execute "lbu x6, x0, 8" processor0)
  = registers (execute "lw x6, x0, 8" processor0).
Proof.
  split.
  - apply (load_store_width_ignored "sb x5, x0, 8" "sw x5, x0, 8" "sb" "sw"
                                    [JNum 5; JNum 0; JNum 8] processor0);
      vm_compute; reflexivity.
  - apply (load_store_width_ignored "lbu x6, x0, 8" "lw x6, x0, 8" "lbu" "lw"
                                    [JNum 6; JNum 0; JNum 8] processor0);
      vm_compute; reflexivity.
Defined.

(** A byte store of a large value followed by an unsigned byte load
    moves the whole word. *)
Example byte_store_moves_whole_word :
  let p := steps 3 (set_instructions
                      [ "addi x5, x0, 305419896"; "sb x5, x0, 8"; "lbu x6, x0, 8" ]
                      processor0) in
  get (memory p) (JNum 2) = JNum 305419896 /\
  get (registers p) (JNum 6) = JNum 305419896.
Proof. split; vm_compute; reflexivity. Qed.

(** ** The program counter *)

Lemma operand_or_nonzero rs i d : d <> 0 -> operand_or rs i d <> 0.
Proof.
  intros Hd. unfold operand_or. destruct (operand rs i) as [z| |]; try exact Hd.
  destruct (z =? 0) eqn:E; [exact Hd | apply Z.eqb_neq, E].
Qed.

Lemma execute_pc_moves (text : string) (p : processor) :
  pc (execute text p) <> pc p /\
  (field_is (getOpcodeValue (opcode (parseInstruction text))) 99 = true \/
   pc (execute text p) = pc p + 1).
Proof.
  unfold execute. destruct (parseInstruction text) as [m rs]. cbn [opcode].
  pose proof (operand_or_nonzero rs 2 1 ltac:(lia)) as Hoff.
  repeat match goal with
         | |- context [if field_is ?f ?n then _ else _] => destruct (field_is f n)
         end;
    try (destruct (not_zero (operand rs 0)));
    try (destruct (takeBranch _ _ _));
    cbn [pc set_pc addToLog set_executionLog]; split; try lia; auto.
Qed.


(** ** Runs *)

Lemma step_at_end p :
  Z.of_nat (length (instructions p)) <= pc p -> step p = p.
Proof.
  intros H. unfold step, stepExecution.
  destruct (pc p <? _) eqn:E; [apply Z.ltb_lt in E; lia | reflexivity].
Qed.

Lemma executeInstruction_before_start p : pc p < 0 -> executeInstruction p = None.
Proof.
  intros H. unfold executeInstruction, fetch.
  destruct (pc p >=? _) eqn:E; [apply Z.geb_le in E; lia |].
  destruct (pc p <? 0) eqn:E'; [reflexivity | apply Z.ltb_ge in E'; lia].
Qed.

Lemma step_before_start p : pc p < 0 -> step p = p.
Proof.
  intros H. unfold step, stepExecution.
  rewrite (executeInstruction_before_start p H).
  destruct (pc p <? _); reflexivity.
Qed.

Lemma steps_fixed n p : step p = p -> steps n p = p.
Proof.
  intros H. induction n as [|n IH]; [reflexivity |].
  simpl. rewrite H. exact IH.
Qed.

Lemma step_in_range p :
  0 <= pc p < Z.of_nat (length (instructions p)) ->
  exists text, fetch p = Some text /\ step p = execute text p.
Proof.
  intros H. unfold fetch.
  destruct (pc p <? 0) eqn:E; [apply Z.ltb_lt in E; lia |].
  destruct (nth_error (instructions p) (Z.to_nat (pc p))) as [text|] eqn:N.
  - exists text. split; [reflexivity |].
    unfold step. rewrite (stepExecution_fetch p text); [reflexivity |].
    unfold fetch. rewrite E. exact N.
  - apply nth_error_None in N. lia.
Qed.

(** X11.  Once the program counter is at or past the end of the program,
    stepping does nothing at all: the state after any number of steps is
    the state before, and nothing is appended to the trace. *)
Theorem steps_at_end_do_nothing (n : nat) (p : processor) :
  Z.of_nat (length (instructions p)) <= pc p -> steps n p = p.
Proof. intros H. apply steps_fixed, step_at_end, H. Qed.

Lemma steps_at_end_do_nothing_witness :
  steps 5 (steps 4 processor0) = steps 4 processor0.
Proof. apply (steps_at_end_do_nothing 5 (steps 4 processor0)). vm_compute. discriminate. Defined.

(** X12.  With a negative program counter the instruction fetch yields
    [undefined] and [executeInstruction] raises before changing anything:
    no number of steps moves the processor again. *)
Theorem negative_pc_is_stuck (n : nat) (p : processor) :
  pc p < 0 -> executeInstruction p = None /\ steps n p = p.
Proof.
  intros H. split; [apply executeInstruction_before_start, H |].
  apply steps_fixed, step_before_start, H.
Qed.

Lemma negative_pc_is_stuck_witness :
  executeInstruction (step (set_instructions ["beq x0, x0, -3"] processor0)) = None /\
  steps 7 (step (set_instructions ["beq x0, x0, -3"] processor0))
  = step (set_instructions ["beq x0, x0, -3"] processor0).
Proof.
  apply (negative_pc_is_stuck 7 (step (set_instructions ["beq x0, x0, -3"] processor0))).
  vm_compute. reflexivity.
Defined.

(** ** The trace *)

Lemma execute_log text p :
  exists msg,
    executionLog (execute text p)
    = (executionLog p ++ [cat ["["; pretty (pc (execute text p) - 1); "] "; msg]])%list.
Proof.
  unfold execute. destruct (parseInstruction text) as [m rs].
  repeat match goal with
         | |- context [if field_is ?f ?n then _ else _] => destruct (field_is f n)
         end;
    try (destruct (not_zero (operand rs 0)));
    try (destruct (takeBranch _ _ _));
    eexists; reflexivity.
Qed.

Lemma execute_isRunning text p : isRunning (execute text p) = isRunning p.
Proof.
  unfold execute. destruct (parseInstruction text) as [m rs].
  repeat match goal with
         | |- context [if ?c then _ else _] => destruct c
         end; reflexivity.
Qed.

(** X13.  Every executed instruction appends exactly one entry to the
    trace, and the number that entry shows between brackets is the new
    program counter minus one: the index of the instruction itself unless
    a branch was taken with an offset other than 1. *)
Theorem trace_entry_shows_new_pc_minus_one (p : processor) (text : string) :
  fetch p = Some text ->
  exists (p' : processor) (msg : string),
    executeInstruction p = Some p' /\
    executionLog p' = (executionLog p ++ [cat ["["; pretty (pc p' - 1); "] "; msg]])%list.
Proof.
  intros Hf. destruct (execute_log text p) as [msg Hmsg].
  exists (execute text p), msg. split; [apply executeInstruction_fetch, Hf | exact Hmsg].
Qed.

Lemma trace_entry_shows_new_pc_minus_one_witness :
  exists (p' : processor) (msg : string),
    executeInstruction (beqState 7 7) = Some p' /\
    executionLog p'
    = (executionLog (beqState 7 7) ++ [cat ["["; pretty (pc p' - 1); "] "; msg]])%list.
Proof.
  apply (trace_entry_shows_new_pc_minus_one (beqState 7 7) "beq x1, x2, 2").
  reflexivity.
Defined.

(** The branch at index 1 is logged under index 2. *)
Example taken_branch_logged_under_target :
  executionLog (step (beqState 7 7)) = ["[2] BEQ x1, x2, 2 → SALTO TOMADO (PC = 3)"].
Proof. vm_compute. reflexivity. Qed.


Lemma steps_instructions n p : instructions (steps n p) = instructions p.
Proof.
  revert p. induction n as [|n IH]; intros p; [reflexivity |].
  simpl. rewrite IH. apply step_instructions.
Qed.

(** X14.  Stepping never rewrites history: after any number of steps the
    program and the run flag are unchanged, and the trace is the old
    trace followed by at most one new entry per step. *)
Theorem steps_keep_program_and_extend_trace (n : nat) (p : processor) :
  instructions (steps n p) = instructions p /\
  isRunning (steps n p) = isRunning p /\
  exists added : list string,
    executionLog (steps n p) = (executionLog p ++ added)%list /\
    (length added <= n)%nat.
Proof.
  revert p. induction n as [|n IH]; intros p.
  - repeat split. exists []. split; [symmetry; apply app_nil_r | simpl; lia].
  - destruct (IH (step p)) as (Hi & Hr & added & Hl & Hn). simpl.
    assert (Hstep : instructions (step p) = instructions p /\
                    isRunning (step p) = isRunning p /\
                    exists one, executionLog (step p) = (executionLog p ++ one)%list /\
                                (length one <= 1)%nat).
    { unfold step, stepExecution, executeInstruction.
      assert (Hsame : instructions p = instructions p /\ isRunning p = isRunning p /\
                      exists one, executionLog p = (executionLog p ++ one)%list /\
                                  (length one <= 1)%nat).
      { repeat split. exists []. split; [symmetry; apply app_nil_r | simpl; lia]. }
      destruct (pc p <? _) eqn:E1; [| exact Hsame].
      destruct (pc p >=? _) eqn:E2.
      { apply Z.ltb_lt in E1. apply Z.geb_le in E2. lia. }
      destruct (fetch p) as [text|]; [| exact Hsame].
      change (default p (Some (execute text p))) with (execute text p).
      split; [apply execute_instructions |].
      split; [apply execute_isRunning |].
      destruct (execute_log text p) as [msg ->]. eexists. split; [reflexivity | simpl; lia]. }
    destruct Hstep as (Hi1 & Hr1 & one & Hl1 & Hn1).
    split; [congruence |]. split; [congruence |].
    exists (one ++ added)%list. split.
    + rewrite Hl, Hl1. symmetry. apply app_assoc.
    + rewrite length_app. lia.
Qed.

(** ** Programs without branches *)

Lemma steps_add n m p : steps (n + m) p = steps m (steps n p).
Proof. revert p. induction n as [|n IH]; intros p; [reflexivity | apply IH]. Qed.

Lemma branchFree_step p :
  branchFree (instructions p) = true ->
  0 <= pc p < Z.of_nat (length (instructions p)) ->
  pc (step p) = pc p + 1 /\
  length (executionLog (step p)) = S (length (executionLog p)).
Proof.
  intros Hb Hr. destruct (step_in_range p Hr) as (text & Hf & ->).
  assert (Hin : In text (instructions p)).
  { unfold fetch in Hf. destruct (pc p <? 0); [discriminate |].
    eapply nth_error_In, Hf. }
  unfold branchFree in Hb. rewrite forallb_forall in Hb.
  specialize (Hb text Hin). apply negb_true_iff in Hb.
  split; [destruct (execute_pc_moves text p) as [_ [E | E]]; [congruence | exact E] |].
  destruct (execute_log text p) as [msg ->]. rewrite length_app. simpl. lia.
Qed.

Lemma branchFree_run k : forall p,
  branchFree (instructions p) = true ->
  0 <= pc p ->
  pc p + Z.of_nat k = Z.of_nat (length (instructions p)) ->
  pc (steps k p) = Z.of_nat (length (instructions p)) /\
  length (executionLog (steps k p)) = (length (executionLog p) + k)%nat.
Proof.
  induction k as [|k IH]; intros p Hb H0 Hk.
  - simpl. split; lia.
  - destruct (branchFree_step p Hb ltac:(lia)) as [Hpc Hlog].
    pose proof (step_instructions p) as Hi.
    destruct (IH (step p)) as [Hpc' Hlog'].
    + rewrite Hi. exact Hb.
    + lia.
    + rewrite Hi. lia.
    + simpl. rewrite Hpc', Hlog', Hi, Hlog. split; lia.
Qed.

(** X15.  A program that contains no instruction of the branch class,
    started at its first instruction, stops after exactly as many steps
    as it has instructions: the program counter is then the length of the
    program, one trace entry has been written per instruction, and
    further steps change nothing. *)
Theorem branch_free_program_halts (p : processor) :
  branchFree (instructions p) = true ->
  pc p = 0 ->
  let n := length (instructions p) in
  pc (steps n p) = Z.of_nat n /\
  length (executionLog (steps n p)) = (length (executionLog p) + n)%nat /\
  (forall m : nat, steps (n + m) p = steps n p).
Proof.
  intros Hb H0 n.
  destruct (branchFree_run n p Hb ltac:(lia) ltac:(lia)) as [Hpc Hlog].
  split; [exact Hpc |]. split; [exact Hlog |].
  intros m. rewrite steps_add. apply steps_fixed, step_at_end.
  rewrite steps_instructions. fold n. lia.
Qed.

Lemma branch_free_program_halts_witness :
  pc (steps (length (instructions processor0)) processor0)
  = Z.of_nat (length (instructions processor0)) /\
  length (executionLog (steps (length (instructions processor0)) processor0))
  = (length (executionLog processor0) + length (instructions processor0))%nat /\
  (forall m : nat,
      steps (length (instructions processor0) + m) processor0
      = steps (length (instructions processor0)) processor0).
Proof. apply (branch_free_program_halts processor0); reflexivity. Defined.

(** A branch is enough to lose this: the one-instruction program
    [beq x0, x0, -1] never reaches its end. *)
Example backward_branch_never_halts :
  pc (steps 1 (set_instructions ["beq x0, x0, -1"] processor0)) = -1 /\
  pc (steps 50 (set_instructions ["beq x0, x0, -1"] processor0)) = -1.
Proof. split; vm_compute; reflexivity. Qed.

(** ** Control signals *)

Lemma execute_signals text p :
  controlSignals (execute text p) = controlSignals p \/
  In (controlSignals (execute text p)) classSignals.
Proof.
  unfold execute. destruct (parseInstruction text) as [m rs].
  repeat match goal with
         | |- context [if field_is ?f ?n then _ else _] => destruct (field_is f n)
         end;
    try (destruct (not_zero (operand rs 0)));
    try (destruct (takeBranch _ _ _));
    cbn; tauto.
Qed.

Lemma step_signals p :
  In (controlSignals p) classSignals -> In (controlSignals (step p)) classSignals.
Proof.
  intros H. unfold step, stepExecution, executeInstruction.
  destruct (pc p <? _); [| exact H].
  destruct (pc p >=? _); [exact H |].
  destruct (fetch p) as [text|]; [| exact H].
  change (default p (Some (execute text p))) with (execute text p).
  destruct (execute_signals text p) as [-> | H']; assumption.
Qed.

(** X16.  From the state the script creates, with any program and after
    any number of steps, the control signals are the initial vector or
    one of the five class vectors; in particular a register write and a
    memory write are never signalled together, a memory-to-register
    transfer is signalled only with a memory read, and a branch only
    without any write. *)
Theorem control_signals_consistent (n : nat) (program : list string) :
  let c := controlSignals (steps n (set_instructions program processor0)) in
  In c classSignals /\
  RegWrite c && MemWrite c = false /\
  implb (MemToReg c) (MemRead c) = true /\
  Branch c && (RegWrite c || MemWrite c) = false.
Proof.
  assert (H : forall k p, In (controlSignals p) classSignals ->
                          In (controlSignals (steps k p)) classSignals).
  { induction k as [|k IH]; intros p Hp; [exact Hp | apply IH, step_signals, Hp]. }
  cbv zeta.
  specialize (H n (set_instructions program processor0) ltac:(left; reflexivity)).
  split; [exact H |].
  destruct H as [<- | [<- | [<- | [<- | [<- | [<- | []]]]]]]; repeat split.
Qed.

(** An instruction of no class leaves the signals of the instruction
    before it. *)
Example unknown_instruction_keeps_previous_signals :
  controlSignals (steps 2 (set_instructions ["sw x1, x0, 0"; "nop"] processor0))
  = mkSignals false true true false false false "00".
Proof. vm_compute. reflexivity. Qed.

(** ** The timer *)





Example run_of_starter_program :
  snd (ticks 4 (runProgram processor0)) = true /\
  snd (ticks 5 (runProgram processor0)) = false /\
  pc (fst (ticks 5 (runProgram processor0))) = 4.
Proof. repeat split; vm_compute; reflexivity. Qed.

(** ** Editing the program *)

Lemma splice1_in_range {A} (i : nat) (l : list A) :
  (i < length l)%nat ->
  splice1 (Z.of_nat i) l = (firstn i l ++ skipn (S i) l)%list.
Proof.
  intros H. unfold splice1.
  destruct (Z.of_nat i <? 0) eqn:E; [apply Z.ltb_lt in E; lia |].
  rewrite Z.min_l by lia. rewrite Nat2Z.id. reflexivity.
Qed.

Lemma splice1_past_end {A} (index : Z) (l : list A) :
  Z.of_nat (length l) <= index -> splice1 index l = l.
Proof.
  intros H. unfold splice1.
  destruct (index <? 0) eqn:E; [apply Z.ltb_lt in E; lia |].
  rewrite Z.min_r by lia. rewrite Nat2Z.id.
  rewrite firstn_all, skipn_all2 by (simpl; lia). apply app_nil_r.
Qed.

Lemma deleteInstruction_fields index p :
  instructions (deleteInstruction index p) = splice1 index (instructions p) /\
  registers (deleteInstruction index p) = registers p /\
  memory (deleteInstruction index p) = memory p /\
  executionLog (deleteInstruction index p) = executionLog p /\
  pc (deleteInstruction index p)
  = (if pc p >=? Z.of_nat (length (splice1 index (instructions p))) then 0 else pc p).
Proof.
  unfold deleteInstruction. cbv zeta.
  change (pc (set_instructions (splice1 index (instructions p)) p)) with (pc p).
  change (instructions (set_instructions (splice1 index (instructions p)) p))
    with (splice1 index (instructions p)).
  destruct (pc p >=? _); repeat split.
Qed.

Lemma deleteInstruction_in_range (i : nat) (p : processor) :
  (i < length (instructions p))%nat ->
  let p' := deleteInstruction (Z.of_nat i) p in
  S (length (instructions p')) = length (instructions p) /\
  (forall j, (j < i)%nat ->
             nth_error (instructions p') j = nth_error (instructions p) j) /\
  (forall j, (i <= j)%nat ->
             nth_error (instructions p') j = nth_error (instructions p) (S j)) /\
  registers p' = registers p /\ memory p' = memory p /\
  executionLog p' = executionLog p.
Proof.
  intros Hi p'.
  destruct (deleteInstruction_fields (Z.of_nat i) p) as (Hins & Hr & Hm & Hl & _).
  fold p' in Hins, Hr, Hm, Hl. rewrite Hins, (splice1_in_range i _ Hi).
  assert (Hlen : length (firstn i (instructions p)) = i)
    by (rewrite length_firstn; lia).
  repeat split; try assumption.
  - rewrite length_app, Hlen, length_skipn. lia.
  - intros j Hj. rewrite nth_error_app1 by lia. rewrite nth_error_firstn.
    assert (E : (j <? i)%nat = true) by (apply Nat.ltb_lt; lia).
    rewrite E. reflexivity.
  - intros j Hj. rewrite nth_error_app2 by lia. rewrite Hlen, nth_error_skipn.
    f_equal. lia.
Qed.


(** X18.  Removing the instruction at an index within the program
    shortens the program by one: the instructions before the index keep
    their position, those after it move down by one, and the registers,
    the memory and the trace are not touched. *)
Theorem deleteInstruction_removes_one (i : nat) (p : processor) :
  (i < length (instructions p))%nat ->
  let p' := deleteInstruction (Z.of_nat i) p in
  S (length (instructions p')) = length (instructions p) /\
  (forall j, (j < i)%nat ->
             nth_error (instructions p') j = nth_error (instructions p) j) /\
  (forall j, (i <= j)%nat ->
             nth_error (instructions p') j = nth_error (instructions p) (S j)) /\
  registers p' = registers p /\ memory p' = memory p /\
  executionLog p' = executionLog p.
Proof. apply deleteInstruction_in_range. Qed.

Lemma deleteInstruction_removes_one_witness :
  let p' := deleteInstruction (Z.of_nat 1) processor0 in
  S (length (instructions p')) = length (instructions processor0) /\
  (forall j, (j < 1)%nat ->
             nth_error (instructions p') j = nth_error (instructions processor0) j) /\
  (forall j, (1 <= j)%nat ->
             nth_error (instructions p') j = nth_error (instructions processor0) (S j)) /\
  registers p' = registers processor0 /\ memory p' = memory processor0 /\
  executionLog p' = executionLog processor0.
Proof. apply (deleteInstruction_removes_one 1 processor0). simpl. lia. Defined.

(** X19.  A removal at an index at or past the end of the program
    removes nothing, but the program counter is still reset to 0 when it
    stands at or past the end. *)
Theorem deleteInstruction_past_end (index : Z) (p : processor) :
  Z.of_nat (length (instructions p)) <= index ->
  instructions (deleteInstruction index p) = instructions p /\
  pc (deleteInstruction index p)
  = (if pc p >=? Z.of_nat (length (instructions p)) then 0 else pc p).
Proof.
  intros H.
  destruct (deleteInstruction_fields index p) as (Hins & _ & _ & _ & Hpc).
  rewrite Hins, Hpc, (splice1_past_end index _ H). split; reflexivity.
Qed.

Lemma deleteInstruction_past_end_witness :
  instructions (deleteInstruction 9 (steps 4 processor0))
  = instructions (steps 4 processor0) /\
  pc (deleteInstruction 9 (steps 4 processor0))
  = (if pc (steps 4 processor0) >=? Z.of_nat (length (instructions (steps 4 processor0)))
     then 0 else pc (steps 4 processor0)).
Proof. apply (deleteInstruction_past_end 9 (steps 4 processor0)). vm_compute. discriminate. Defined.

(** X20.  After any removal from a state whose program counter is not
    negative, the program counter designates an instruction of the
    program whenever the program has one, and is 0 when it has none. *)
Theorem deleteInstruction_pc_in_program (index : Z) (p : processor) :
  0 <= pc p ->
  let p' := deleteInstruction index p in
  (instructions p' <> [] -> exists text, fetch p' = Some text) /\
  (instructions p' = [] -> pc p' = 0).
Proof.
  intros H0 p'.
  destruct (deleteInstruction_fields index p) as (Hins & _ & _ & _ & Hpc).
  fold p' in Hins, Hpc. rewrite <- Hins in Hpc.
  assert (Hrange : instructions p' <> [] ->
                   0 <= pc p' < Z.of_nat (length (instructions p'))).
  { intros Hne. assert (0 < length (instructions p'))%nat
      by (destruct (instructions p'); [congruence | simpl; lia]).
    rewrite Hpc. destruct (pc p >=? _) eqn:E; [lia |].
    rewrite Z.geb_leb in E. apply Z.leb_gt in E. lia. }
  split.
  - intros Hne. destruct (step_in_range p' (Hrange Hne)) as (text & Hf & _).
    exists text. exact Hf.
  - intros Hnil. rewrite Hpc, Hnil. change (Z.of_nat (length (@nil string))) with 0.
    destruct (pc p >=? 0) eqn:E; [reflexivity |].
    rewrite Z.geb_leb in E. apply Z.leb_gt in E. lia.
Qed.

Lemma deleteInstruction_pc_in_program_witness :
  let p' := deleteInstruction 0 (steps 4 processor0) in
  (instructions p' <> [] -> exists text, fetch p' = Some text) /\
  (instructions p' = [] -> pc p' = 0).
Proof.
  apply (deleteInstruction_pc_in_program 0 (steps 4 processor0)).
  vm_compute. discriminate.
Defined.

(** X21.  The program counter is not adjusted for a removal in front of
    it: when an instruction before the current one is removed and the
    current one was not the last, the instruction executed next is the
    one that followed the current one, which is thereby skipped. *)
Theorem deleteInstruction_before_pc_skips (i : nat) (p : processor) :
  Z.of_nat i < pc p ->
  pc p + 1 < Z.of_nat (length (instructions p)) ->
  fetch (deleteInstruction (Z.of_nat i) p) = fetch (set_pc (pc p + 1) p).
Proof.
  intros Hi Hp.
  assert (Hlt : (i < length (instructions p))%nat) by lia.
  destruct (deleteInstruction_in_range i p Hlt) as (Hlen & _ & Hafter & _).
  destruct (deleteInstruction_fields (Z.of_nat i) p) as (Hins & _ & _ & _ & Hpc).
  rewrite <- Hins in Hpc.
  assert (E : (pc p >=? Z.of_nat (length (instructions (deleteInstruction (Z.of_nat i) p))))
              = false).
  { rewrite Z.geb_leb. apply Z.leb_gt. lia. }
  rewrite E in Hpc. unfold fetch. rewrite Hpc.
  change (pc (set_pc (pc p + 1) p)) with (pc p + 1).
  change (instructions (set_pc (pc p + 1) p)) with (instructions p).
  destruct (pc p <? 0) eqn:E1; [apply Z.ltb_lt in E1; lia |].
  destruct (pc p + 1 <? 0) eqn:E2; [apply Z.ltb_lt in E2; lia |].
  rewrite Hafter by lia. f_equal. lia.
Qed.

Lemma deleteInstruction_before_pc_skips_witness :
  fetch (deleteInstruction (Z.of_nat 0) (steps 2 processor0))
  = fetch (set_pc (pc (steps 2 processor0) + 1) (steps 2 processor0)).
Proof.
  apply (deleteInstruction_before_pc_skips 0 (steps 2 processor0));
    vm_compute; reflexivity.
Defined.

Example removal_before_pc_skips_add :
  fetch (steps 2 processor0) = Some "add x3, x1, x2" /\
  fetch (deleteInstruction 0 (steps 2 processor0)) = Some "sub x4, x2, x1".
Proof. split; vm_compute; reflexivity. Qed.

(** ** Adding an instruction *)


Lemma trimStart_spaces s : all_spaces s = true -> trimStart s = "".
Proof.
  induction s as [|c r IH]; [reflexivity |]. simpl.
  intros H. apply andb_true_iff in H as [Hc Hr]. rewrite Hc. exact (IH Hr).
Qed.

Lemma trimStart_shape s :
  trimStart s = "" /\ all_spaces s = true \/
  exists c r, trimStart s = String c r /\ is_space c = false /\ all_spaces s = false.
Proof.
  induction s as [|c r IH]; [left; split; reflexivity |]. simpl.
  destruct (is_space c) eqn:E.
  - destruct IH as [[H1 H2] | (c' & r' & H1 & H2 & H3)].
    + left. split; [exact H1 | rewrite H2; reflexivity].
    + right. exists c', r'. rewrite H3. repeat split; assumption.
  - right. exists c, r. repeat split. exact E.
Qed.

Lemma trimEnd_head c r :
  is_space c = false -> exists t, trimEnd (String c r) = String c t.
Proof.
  intros H. simpl. destruct (trimEnd r); [rewrite H |]; eexists; reflexivity.
Qed.

Lemma trimEnd_idem s : trimEnd (trimEnd s) = trimEnd s.
Proof.
  induction s as [|c r IH]; [reflexivity |]. simpl.
  destruct (trimEnd r) as [|c' t] eqn:E.
  - destruct (is_space c) eqn:Ec; [reflexivity |]. simpl. rewrite Ec. reflexivity.
  - simpl. simpl in IH. 
    destruct (match trimEnd t with
              | "" => if is_space c' then "" else String c' ""
              | String a s0 => String c' (String a s0)
              end) eqn:E'; [discriminate IH | rewrite IH; reflexivity].
Qed.

Lemma trim_idem s : trim (trim s) = trim s.
Proof.
  unfold trim. destruct (trimStart_shape s) as [[-> _] | (c & r & -> & Hc & _)];
    [reflexivity |].
  destruct (trimEnd_head c r Hc) as [t Ht]. rewrite Ht.
  assert (E : trimStart (String c t) = String c t) by (simpl; rewrite Hc; reflexivity).
  rewrite E, <- Ht. apply trimEnd_idem.
Qed.

Lemma trim_blank s : trim s = "" <-> all_spaces s = true.
Proof.
  unfold trim. destruct (trimStart_shape s) as [[-> H] | (c & r & -> & Hc & H)].
  - split; [intros _; exact H | reflexivity].
  - destruct (trimEnd_head c r Hc) as [t ->]. rewrite H. split; discriminate.
Qed.

(** X22.  A text made of white space only (or empty) adds nothing; any
    other text adds exactly one entry at the end of the program, the
    text without its leading and trailing white space, so that the entry
    is not empty and trimming it again changes nothing.  The registers,
    the memory, the program counter and the trace are left alone in both
    cases. *)
Theorem addInstruction_appends_trimmed (s : string) (p : processor) :
  (if all_spaces s
   then addInstruction s p = p
   else instructions (addInstruction s p) = (instructions p ++ [trim s])%list /\
        trim s <> "" /\ trim (trim s) = trim s) /\
  registers (addInstruction s p) = registers p /\
  memory (addInstruction s p) = memory p /\
  pc (addInstruction s p) = pc p /\
  executionLog (addInstruction s p) = executionLog p.
Proof.
  unfold addInstruction. pose proof (trim_blank s) as B. pose proof (trim_idem s) as I.
  destruct (trim s) as [|c t] eqn:E.
  - rewrite (proj1 B eq_refl). repeat split.
  - destruct (all_spaces s); [destruct B as [_ B]; discriminate (B eq_refl) |].
    repeat split; [discriminate | exact I].
Qed.

(** X23.  Adding a text and then removing the entry at the index where
    it would have been stored gives the program back. *)
Theorem add_then_delete_restores_program (s : string) (p : processor) :
  instructions (deleteInstruction (Z.of_nat (length (instructions p)))
                                  (addInstruction s p))
  = instructions p.
Proof.
  destruct (deleteInstruction_fields (Z.of_nat (length (instructions p)))
                                     (addInstruction s p)) as (-> & _).
  unfold addInstruction. destruct (trim s) as [|c t].
  - apply splice1_past_end. lia.
  - change (instructions (set_instructions (instructions p ++ [String c t]) p))
      with (instructions p ++ [String c t])%list.
    rewrite splice1_in_range by (rewrite length_app; simpl; lia).
    rewrite firstn_app, firstn_all, Nat.sub_diag. simpl.
    rewrite skipn_all2 by (rewrite length_app; simpl; lia).
    rewrite !app_nil_r. reflexivity.
Qed.

(** ** The decoder *)

Lemma map_string_app f a b :
  map_string f (String.append a b) = String.append (map_string f a) (map_string f b).
Proof. induction a as [|c a IH]; simpl; [reflexivity | rewrite IH; reflexivity]. Qed.

Lemma map_string_map_string f g s :
  map_string f (map_string g s) = map_string (fun c => f (g c)) s.
Proof. induction s as [|c s IH]; simpl; [reflexivity | rewrite IH; reflexivity]. Qed.

Lemma map_string_ext f g s : (forall c, f c = g c) -> map_string f s = map_string g s.
Proof. intros H. induction s as [|c s IH]; simpl; [reflexivity | rewrite H, IH; reflexivity]. Qed.

Ltac each_char c := destruct c as [[] [] [] [] [] [] [] []].

Lemma lower_upper c : lower_char (upper_char c) = lower_char c.
Proof. each_char c; reflexivity. Qed.

Lemma lower_lower c : lower_char (lower_char c) = lower_char c.
Proof. each_char c; reflexivity. Qed.

Lemma is_space_upper c : is_space (upper_char c) = is_space c.
Proof. each_char c; reflexivity. Qed.

Lemma is_space_lower c : is_space (lower_char c) = is_space c.
Proof. each_char c; reflexivity. Qed.

Lemma trimStart_map f s :
  (forall c, is_space (f c) = is_space c) ->
  trimStart (map_string f s) = map_string f (trimStart s).
Proof.
  intros H. induction s as [|c s IH]; [reflexivity |]. simpl.
  rewrite H. destruct (is_space c); [exact IH | reflexivity].
Qed.

Lemma trimEnd_map f s :
  (forall c, is_space (f c) = is_space c) ->
  trimEnd (map_string f s) = map_string f (trimEnd s).
Proof.
  intros H. induction s as [|c s IH]; [reflexivity |]. simpl.
  rewrite IH, H. destruct (trimEnd s); simpl; [destruct (is_space c) |]; reflexivity.
Qed.

Lemma trim_map f s :
  (forall c, is_space (f c) = is_space c) -> trim (map_string f s) = map_string f (trim s).
Proof. intros H. unfold trim. rewrite trimStart_map, trimEnd_map by exact H. reflexivity. Qed.

Lemma execute_depends_on_parse text1 text2 p :
  parseInstruction text1 = parseInstruction text2 -> execute text1 p = execute text2 p.
Proof. intros H. unfold execute. rewrite H. reflexivity. Qed.

(** X24.  Decoding does not see the case of the letters nor the white
    space around the text: the text in upper case, in lower case or
    trimmed decodes to the same mnemonic and operands, and so executes
    identically. *)
Theorem decoding_ignores_case_and_margins (text : string) (p : processor) :
  parseInstruction (toUpperCase text) = parseInstruction text /\
  parseInstruction (toLowerCase text) = parseInstruction text /\
  parseInstruction (trim text) = parseInstruction text /\
  execute (toUpperCase text) p = execute text p.
Proof.
  assert (U : parseInstruction (toUpperCase text) = parseInstruction text).
  { unfold parseInstruction, toUpperCase, toLowerCase.
    rewrite (trim_map upper_char) by apply is_space_upper.
    rewrite map_string_map_string, (map_string_ext _ lower_char) by apply lower_upper.
    reflexivity. }
  split; [exact U |]. split; [| split].
  - unfold parseInstruction, toLowerCase.
    rewrite (trim_map lower_char) by apply is_space_lower.
    rewrite map_string_map_string, (map_string_ext _ lower_char) by apply lower_lower.
    reflexivity.
  - unfold parseInstruction. rewrite trim_idem. reflexivity.
  - apply execute_depends_on_parse, U.
Qed.

Example decoding_upper_case :
  parseInstruction "   ADDI X1, X0, 0XFF  " = mkParsed "addi" [JNum 1; JNum 0; JNum 255].
Proof. vm_compute. reflexivity. Qed.

(** ** Reading numbers *)



Lemma digit_value_pretty d :
  (d < 10)%N -> digit_value 10 (pretty_N_char d) = Some (Z.of_N d).
Proof.
  intros H.
  assert (d = 0 \/ d = 1 \/ d = 2 \/ d = 3 \/ d = 4 \/ d = 5 \/ d = 6 \/ d = 7
          \/ d = 8 \/ d = 9)%N as C by lia.
  repeat (destruct C as [-> | C]; [reflexivity |]). subst d. reflexivity.
Qed.

Lemma nonzero_digit_pretty d :
  (0 < d < 10)%N -> nonzero_digit (pretty_N_char d) = true.
Proof.
  intros H.
  assert (d = 1 \/ d = 2 \/ d = 3 \/ d = 4 \/ d = 5 \/ d = 6 \/ d = 7
          \/ d = 8 \/ d = 9)%N as C by lia.
  repeat (destruct C as [-> | C]; [reflexivity |]). subst d. reflexivity.
Qed.

Lemma pretty_N_go_app x s r :
  String.append (pretty_N_go x s) r = pretty_N_go x (String.append s r).
Proof.
  revert s. induction (N.lt_wf_0 x) as [x _ IH]; intros s.
  destruct (N.eq_dec x 0%N) as [-> | Hx]; [rewrite !pretty_N_go_0; reflexivity |].
  rewrite (pretty_N_go_step x s), (pretty_N_go_step x (String.append s r)) by lia.
  rewrite IH by (apply N.div_lt; lia). reflexivity.
Qed.

Lemma read_digits_pretty x s :
  (0 < x)%N ->
  read_digits 10 None (pretty_N_go x s) = read_digits 10 (Some (Z.of_N x)) s.
Proof.
  revert s. induction (N.lt_wf_0 x) as [x _ IH]; intros s Hx.
  rewrite pretty_N_go_step by exact Hx.
  assert (Hm : (x mod 10 < 10)%N) by (apply N.mod_lt; lia).
  assert (E : Z.of_N x = 10 * Z.of_N (x / 10) + Z.of_N (x mod 10)).
  { pose proof (N.div_mod x 10%N ltac:(lia)) as D. lia. }
  destruct (N.eq_dec (x / 10)%N 0%N) as [H0 | H0].
  - rewrite H0, pretty_N_go_0. cbn [read_digits].
    rewrite (digit_value_pretty _ Hm). rewrite E, H0. reflexivity.
  - rewrite IH by (try apply N.div_lt; lia). cbn [read_digits].
    rewrite (digit_value_pretty _ Hm). rewrite E. reflexivity.
Qed.

Lemma pretty_N_go_head x s :
  (0 < x)%N -> exists d t, pretty_N_go x s = String d t /\ nonzero_digit d = true.
Proof.
  revert s. induction (N.lt_wf_0 x) as [x _ IH]; intros s Hx.
  rewrite pretty_N_go_step by exact Hx.
  destruct (N.eq_dec (x / 10)%N 0%N) as [H0 | H0].
  - rewrite H0, pretty_N_go_0. eexists _, _. split; [reflexivity |].
    apply nonzero_digit_pretty.
    pose proof (N.div_mod x 10%N ltac:(lia)) as D. rewrite H0 in D.
    assert (x mod 10 < 10)%N by (apply N.mod_lt; lia).
    rewrite N.mul_0_r, N.add_0_l in D. rewrite <- D. lia.
  - apply IH; [apply N.div_lt; lia | apply N.neq_0_lt_0; exact H0].
Qed.

Lemma parseInt_nonzero_digit d t :
  nonzero_digit d = true ->
  parseInt (String d t)
  = match read_digits 10 None (String d t) with Some n => JNum n | None => JNaN end.
Proof. each_char d; intros H; try discriminate H; reflexivity. Qed.

Lemma parseInt_minus s :
  parseInt (String "-" s)
  = match s with
    | String "0" (String "x" r) | String "0" (String "X" r) =>
        match read_digits 16 None r with Some n => JNum (- n) | None => JNaN end
    | _ => match read_digits 10 None s with Some n => JNum (- n) | None => JNaN end
    end.
Proof.
  unfold parseInt. cbn [trimStart is_space].
  change (is_space "-") with false. cbv iota.
  destruct s as [|c r]; [reflexivity |].
  each_char c; try reflexivity.
  destruct r as [|c' r']; [reflexivity |]. each_char c'; reflexivity.
Qed.

Lemma read_digits_stop acc rest :
  ends_number rest = true -> read_digits 10 acc rest = acc.
Proof.
  destruct rest as [|c r]; [reflexivity |]. cbn [ends_number read_digits].
  each_char c; intros H; try discriminate H; reflexivity.
Qed.

Lemma parseInt_pretty_pos (x : positive) rest :
  ends_number rest = true ->
  match read_digits 10 None (pretty_N_go (N.pos x) rest) with
  | Some n => n = Z.pos x
  | None => False
  end.
Proof.
  intros H. rewrite read_digits_pretty by lia.
  rewrite (read_digits_stop _ _ H). reflexivity.
Qed.

Lemma parseInt_pretty (z : Z) (rest : string) :
  ends_number rest = true ->
  parseInt (String.append (pretty z) rest) = JNum z.
Proof.
  intros H. destruct z as [|x|x].
  - change (pretty 0) with "0". cbn [String.append].
    destruct rest as [|c r]; [reflexivity |].
    cbn [ends_number] in H. each_char c; try discriminate H; reflexivity.
  - change (pretty (Z.pos x)) with (pretty_N_go (N.pos x) "").
    rewrite pretty_N_go_app. change (String.append "" rest) with rest.
    destruct (pretty_N_go_head (N.pos x) rest ltac:(lia)) as (d & t & E & Hd).
    pose proof (parseInt_pretty_pos x rest H) as R.
    rewrite E in *. rewrite (parseInt_nonzero_digit d t Hd).
    destruct (read_digits 10 None (String d t)); [congruence | contradiction].
  - change (pretty (Z.neg x)) with (String "-" (pretty_N_go (N.pos x) "")).
    change (String.append (String "-" (pretty_N_go (N.pos x) "")) rest)
      with (String "-" (String.append (pretty_N_go (N.pos x) "") rest)).
    rewrite pretty_N_go_app. change (String.append "" rest) with rest.
    destruct (pretty_N_go_head (N.pos x) rest ltac:(lia)) as (d & t & E & Hd).
    pose proof (parseInt_pretty_pos x rest H) as R.
    rewrite E in *. rewrite parseInt_minus.
    assert (Hd0 : d <> "0"%char) by (intros ->; discriminate Hd).
    destruct (read_digits 10 None (String d t)) as [n|]; [| contradiction]. subst n.
    each_char d; try discriminate Hd; reflexivity.
Qed.


(** What [parseInt] makes of other spellings. *)
Example parseInt_edge_cases :
  parseInt "" = JNaN /\ parseInt "abc" = JNaN /\ parseInt "-" = JNaN /\
  parseInt "12abc" = JNum 12 /\ parseInt "0x1f" = JNum 31 /\ parseInt "0x" = JNaN /\
  parseInt "+7" = JNum 7 /\ parseInt "3.9" = JNum 3 /\ parseInt "007" = JNum 7.
Proof. repeat split; vm_compute; reflexivity. Qed.

(** ** Decoding a text made of separated words *)










Lemma append_nil (b : string) : String.append "" b = b.
Proof. reflexivity. Qed.

Lemma append_cons (c : ascii) (a b : string) :
  String.append (String c a) b = String c (String.append a b).
Proof. reflexivity. Qed.

Lemma append_assoc (a b c : string) :
  String.append (String.append a b) c = String.append a (String.append b c).
Proof.
  induction a as [|x a IH]; [reflexivity |]. rewrite !append_cons, IH. reflexivity.
Qed.

Lemma append_empty_r (a : string) : String.append a "" = a.
Proof.
  induction a as [|x a IH]; [reflexivity |]. rewrite !append_cons, IH. reflexivity.
Qed.

Lemma sep_char_lower c : sep_char (lower_char c) = sep_char c.
Proof. each_char c; reflexivity. Qed.

Lemma sep_char_fixed c : sep_char c = true -> lower_char c = c.
Proof. each_char c; intros H; try discriminate H; reflexivity. Qed.

Lemma token_not_space c : negb (sep_char c) = true -> is_space c = false.
Proof. unfold sep_char. destruct (is_space c); [discriminate | reflexivity]. Qed.

Lemma token_not_comma c : negb (sep_char c) = true -> Ascii.eqb c "," = false.
Proof. unfold sep_char. destruct (is_space c), (Ascii.eqb c ","); try discriminate; reflexivity. Qed.

(** *** Splitting *)

Lemma split_go_word cur w r :
  string_forall (fun c => negb (sep_char c)) w = true ->
  split_go false cur (String.append w r) = split_go false (String.append cur w) r.
Proof.
  revert cur. induction w as [|c w IH]; intros cur H.
  - rewrite append_nil, append_empty_r. reflexivity.
  - simpl in H. apply andb_true_iff in H as [Hc Hw].
    rewrite append_cons. cbn [split_go]. rewrite (token_not_space c Hc).
    rewrite (IH _ Hw), append_assoc, append_cons, append_nil. reflexivity.
Qed.

Lemma split_go_token t r :
  is_token t = true -> split_go true "" (String.append t r) = split_go false t r.
Proof.
  destruct t as [|c t]; [discriminate |]. cbn [is_token string_forall].
  intros H. apply andb_true_iff in H as [Hc Ht].
  rewrite append_cons. cbn [split_go]. rewrite (token_not_space c Hc), append_nil.
  rewrite (split_go_word (String c "") t r Ht), append_cons, append_nil. reflexivity.
Qed.

Lemma split_go_spaces cur ws r :
  all_spaces ws = true ->
  split_go true cur (String.append ws r) = split_go true cur r.
Proof.
  induction ws as [|c ws IH]; intros H; [reflexivity |].
  simpl in H. apply andb_true_iff in H as [Hc Hw].
  rewrite append_cons. cbn [split_go]. rewrite Hc. exact (IH Hw).
Qed.

Lemma split_go_blank cur sep r :
  is_blank sep = true ->
  split_go false cur (String.append sep r) = cur :: split_go true "" r.
Proof.
  destruct sep as [|c ws]; [discriminate |]. cbn [is_blank all_spaces].
  intros H. apply andb_true_iff in H as [Hc Hw].
  rewrite append_cons. cbn [split_go]. rewrite Hc. f_equal.
  exact (split_go_spaces "" ws r Hw).
Qed.

Lemma split_go_spell ops : forall cur,
  blank_spelled ops = true ->
  split_go false cur (spell ops) = cur :: map snd ops.
Proof.
  induction ops as [|[sep t] ops IH]; intros cur H; [reflexivity |].
  cbn [blank_spelled forallb fst snd] in H.
  apply andb_true_iff in H as [H1 H]. apply andb_true_iff in H1 as [Hs Ht].
  cbn [spell map snd]. rewrite (split_go_blank _ _ _ Hs), (split_go_token _ _ Ht).
  f_equal. exact (IH t H).
Qed.

Lemma split_spaces_spell m ops :
  is_token m = true -> blank_spelled ops = true ->
  split_spaces (String.append m (spell ops)) = m :: map snd ops.
Proof.
  intros Hm H. unfold split_spaces.
  assert (Hw : string_forall (fun c => negb (sep_char c)) m = true)
    by (destruct m; [discriminate | exact Hm]).
  rewrite (split_go_word "" m _ Hw). apply split_go_spell, H.
Qed.

(** *** Deleting the commas *)

Lemma strip_commas_app a b :
  strip_commas (String.append a b) = String.append (strip_commas a) (strip_commas b).
Proof.
  induction a as [|c a IH]; [reflexivity |]. rewrite append_cons. cbn [strip_commas].
  destruct (Ascii.eqb c ","); rewrite IH; reflexivity.
Qed.

Lemma strip_commas_word w :
  string_forall (fun c => negb (sep_char c)) w = true -> strip_commas w = w.
Proof.
  induction w as [|c w IH]; [reflexivity |]. simpl. intros H.
  apply andb_true_iff in H as [Hc Hw]. rewrite (token_not_comma c Hc), (IH Hw). reflexivity.
Qed.

Lemma strip_commas_token t : is_token t = true -> strip_commas t = t.
Proof. destruct t; [discriminate | apply strip_commas_word]. Qed.

Lemma strip_commas_spaces s :
  string_forall sep_char s = true -> all_spaces (strip_commas s) = true.
Proof.
  induction s as [|c s IH]; [reflexivity |]. simpl. intros H.
  apply andb_true_iff in H as [Hc Hs]. unfold sep_char in Hc.
  destruct (Ascii.eqb c ","); [exact (IH Hs) |].
  rewrite orb_false_r in Hc. simpl. rewrite Hc. exact (IH Hs).
Qed.

Lemma strip_commas_nonempty s :
  string_forall (fun c => Ascii.eqb c ",") s = false -> strip_commas s <> "".
Proof.
  induction s as [|c s IH]; [discriminate |]. simpl.
  destruct (Ascii.eqb c ","); [exact IH | discriminate].
Qed.

Lemma strip_commas_separator s : is_separator s = true -> is_blank (strip_commas s) = true.
Proof.
  unfold is_separator. intros H. apply andb_true_iff in H as [H1 H2].
  apply negb_true_iff in H2.
  pose proof (strip_commas_spaces s H1) as B. pose proof (strip_commas_nonempty s H2) as N.
  unfold is_blank. destruct (strip_commas s); [congruence | exact B].
Qed.


Ltac split_spelled H Hs Ht :=
  cbn [well_spelled blank_spelled forallb fst snd] in H;
  apply andb_true_iff in H as [Hs H]; apply andb_true_iff in Hs as [Hs Ht].

Lemma strip_commas_spell ops :
  well_spelled ops = true -> strip_commas (spell ops) = spell (unpunctuate ops).
Proof.
  induction ops as [|[sep t] ops IH]; intros H; [reflexivity |].
  split_spelled H Hs Ht. cbn [spell unpunctuate map fst snd].
  rewrite !strip_commas_app, (strip_commas_token t Ht), (IH H). reflexivity.
Qed.

Lemma unpunctuate_blank ops :
  well_spelled ops = true -> blank_spelled (unpunctuate ops) = true.
Proof.
  induction ops as [|[sep t] ops IH]; intros H; [reflexivity |].
  split_spelled H Hs Ht. cbn [unpunctuate map blank_spelled forallb fst snd].
  apply andb_true_iff. split; [| exact (IH H)].
  apply andb_true_iff. split; [apply strip_commas_separator, Hs | exact Ht].
Qed.

Lemma unpunctuate_words ops : map snd (unpunctuate ops) = map snd ops.
Proof. unfold unpunctuate. rewrite map_map. reflexivity. Qed.

(** *** Lower case *)

Lemma toLowerCase_separator s : string_forall sep_char s = true -> toLowerCase s = s.
Proof.
  induction s as [|c s IH]; [reflexivity |]. simpl. intros H.
  apply andb_true_iff in H as [Hc Hs].
  unfold toLowerCase in *. simpl. rewrite (sep_char_fixed c Hc), (IH Hs). reflexivity.
Qed.

Lemma string_forall_lower s :
  string_forall (fun c => negb (sep_char c)) (toLowerCase s)
  = string_forall (fun c => negb (sep_char c)) s.
Proof.
  induction s as [|c s IH]; [reflexivity |]. unfold toLowerCase in *. simpl.
  rewrite sep_char_lower, IH. reflexivity.
Qed.

Lemma is_token_lower t : is_token (toLowerCase t) = is_token t.
Proof.
  destruct t as [|c t]; [reflexivity |].
  change (is_token (String c t)) with (string_forall (fun c => negb (sep_char c)) (String c t)).
  rewrite <- string_forall_lower. reflexivity.
Qed.


Lemma toLowerCase_spell ops :
  well_spelled ops = true -> toLowerCase (spell ops) = spell (lowered ops).
Proof.
  induction ops as [|[sep t] ops IH]; intros H; [reflexivity |].
  split_spelled H Hs Ht. cbn [spell lowered map fst snd].
  unfold is_separator in Hs. apply andb_true_iff in Hs as [Hs _].
  unfold toLowerCase in *. rewrite !map_string_app, (IH H).
  pose proof (toLowerCase_separator sep Hs) as L. unfold toLowerCase in L. rewrite L.
  reflexivity.
Qed.

Lemma lowered_well_spelled ops :
  well_spelled ops = true -> well_spelled (lowered ops) = true.
Proof.
  induction ops as [|[sep t] ops IH]; intros H; [reflexivity |].
  split_spelled H Hs Ht. cbn [lowered map well_spelled forallb fst snd].
  apply andb_true_iff. split; [| exact (IH H)].
  apply andb_true_iff. split; [exact Hs | rewrite is_token_lower; exact Ht].
Qed.

(** *** The margins *)

Lemma trimEnd_word w :
  string_forall (fun c => negb (sep_char c)) w = true -> trimEnd w = w.
Proof.
  induction w as [|c w IH]; [reflexivity |]. simpl. intros H.
  apply andb_true_iff in H as [Hc Hw]. rewrite (IH Hw), (token_not_space c Hc).
  destruct w; reflexivity.
Qed.

Lemma trimEnd_app_token a t : is_token t = true -> trimEnd (String.append a t) = String.append a t.
Proof.
  intros Ht. induction a as [|c a IH].
  - destruct t; [discriminate | apply trimEnd_word, Ht].
  - rewrite append_cons. cbn [trimEnd]. rewrite IH.
    destruct (String.append a t) eqn:E; [| reflexivity].
    destruct a, t; discriminate.
Qed.

Lemma spell_ends_with_token ops : forall m,
  is_token m = true -> well_spelled ops = true ->
  exists a t, String.append m (spell ops) = String.append a t /\ is_token t = true.
Proof.
  induction ops as [|[sep t] ops IH]; intros m Hm H.
  - exists "", m. cbn [spell]. rewrite append_empty_r, append_nil. split; [reflexivity | exact Hm].
  - cbn [well_spelled forallb fst snd] in H.
    apply andb_true_iff in H as [H1 H]. apply andb_true_iff in H1 as [Hs Ht].
    destruct (IH t Ht H) as (a & t' & E & Ht').
    exists (String.append m (String.append sep a)), t'. split; [| exact Ht'].
    cbn [spell]. rewrite E, !append_assoc. reflexivity.
Qed.

Lemma trim_spelled m ops :
  is_token m = true -> well_spelled ops = true ->
  trim (String.append m (spell ops)) = String.append m (spell ops).
Proof.
  intros Hm H. unfold trim.
  assert (S : trimStart (String.append m (spell ops)) = String.append m (spell ops)).
  { destruct m as [|c m]; [discriminate |]. cbn [is_token string_forall] in Hm.
    apply andb_true_iff in Hm as [Hc _]. rewrite append_cons. cbn [trimStart].
    rewrite (token_not_space c Hc). reflexivity. }
  rewrite S. destruct (spell_ends_with_token ops m Hm H) as (a & t & -> & Ht).
  apply trimEnd_app_token, Ht.
Qed.

Lemma parseInstruction_spelled (m : string) (ops : list (string * string)) :
  is_token m = true ->
  well_spelled ops = true ->
  parseInstruction (String.append m (spell ops))
  = mkParsed (toLowerCase m) (map (fun o => operandOf (toLowerCase (snd o))) ops).
Proof.
  intros Hm H. unfold parseInstruction. rewrite (trim_spelled m ops Hm H).
  pose proof (lowered_well_spelled ops H) as HL.
  assert (Lm : toLowerCase (String.append m (spell ops))
               = String.append (toLowerCase m) (spell (lowered ops))).
  { rewrite <- (toLowerCase_spell ops H). unfold toLowerCase. apply map_string_app. }
  rewrite Lm. pose proof (is_token_lower m) as Tm. rewrite Hm in Tm.
  rewrite strip_commas_app, (strip_commas_token _ Tm), (strip_commas_spell _ HL).
  rewrite (split_spaces_spell _ _ Tm (unpunctuate_blank _ HL)). cbn [hd tl].
  rewrite unpunctuate_words. f_equal. unfold lowered. rewrite !map_map. reflexivity.
Qed.


(** X25.  A text made of a mnemonic word followed by operand words,
    each operand preceded by a separator (any run of white space and
    commas with at least one white space in it), decodes to the mnemonic
    in lower case and to one operand per word, in order: the number
    [parseInt] reads in the word, after dropping a leading [x] if there
    is one. *)
Theorem decoder_reads_the_words (m : string) (ops : list (string * string)) :
  is_token m = true ->
  well_spelled ops = true ->
  parseInstruction (String.append m (spell ops))
  = mkParsed (toLowerCase m) (map (fun o => operandOf (toLowerCase (snd o))) ops).
Proof. apply parseInstruction_spelled. Qed.

Lemma decoder_reads_the_words_witness :
  parseInstruction (String.append "SW" (spell [(" ", "x5"); (" , ", "12(X6)")]))
  = mkParsed (toLowerCase "SW")
             (map (fun o => operandOf (toLowerCase (snd o)))
                  [(" ", "x5"); (" , ", "12(X6)")]).
Proof.
  apply (decoder_reads_the_words "SW" [(" ", "x5"); (" , ", "12(X6)")]); reflexivity.
Defined.

(** Commas alone do not separate: they are deleted, and the words they
    stood between are read as one. *)
Example commas_alone_do_not_separate :
  parseInstruction "add x1,x2,x3" = mkParsed "add" [JNum 1].
Proof. vm_compute. reflexivity. Qed.

(** ** Operand words *)


Lemma string_forall_app f a b :
  string_forall f (String.append a b) = string_forall f a && string_forall f b.
Proof.
  induction a as [|c a IH]; [reflexivity |]. rewrite append_cons. cbn [string_forall].
  rewrite IH. apply andb_assoc.
Qed.

Lemma string_forall_impl (f g : ascii -> bool) s :
  (forall c, f c = true -> g c = true) -> string_forall f s = true -> string_forall g s = true.
Proof.
  intros H. induction s as [|c s IH]; [reflexivity |]. cbn [string_forall].
  intros E. apply andb_true_iff in E as [E1 E2]. rewrite (H c E1), (IH E2). reflexivity.
Qed.

Lemma plain_pretty_char d : plain_char (pretty_N_char d) = true.
Proof.
  unfold pretty_N_char.
  repeat match goal with |- context [match ?x with _ => _ end] => destruct x end;
    reflexivity.
Qed.

Lemma plain_pretty_N_go x s :
  string_forall plain_char s = true -> string_forall plain_char (pretty_N_go x s) = true.
Proof.
  revert s. induction (N.lt_wf_0 x) as [x _ IH]; intros s H.
  destruct (N.eq_dec x 0%N) as [-> | Hx]; [rewrite pretty_N_go_0; exact H |].
  rewrite pretty_N_go_step by lia. apply IH; [apply N.div_lt; lia |].
  cbn [string_forall]. rewrite plain_pretty_char, H. reflexivity.
Qed.

Lemma plain_pretty (z : Z) : string_forall plain_char (pretty z) = true.
Proof.
  destruct z as [|x|x]; [reflexivity | |].
  - change (pretty (Z.pos x)) with (pretty_N_go (N.pos x) ""). apply plain_pretty_N_go. reflexivity.
  - change (pretty (Z.neg x)) with (String "-" (pretty_N_go (N.pos x) "")).
    cbn [string_forall]. rewrite plain_pretty_N_go by reflexivity. reflexivity.
Qed.

Lemma plain_not_sep c : plain_char c = true -> negb (sep_char c) = true.
Proof. each_char c; intros H; try discriminate H; reflexivity. Qed.

Lemma plain_lower c : plain_char c = true -> lower_char c = c.
Proof. each_char c; intros H; try discriminate H; reflexivity. Qed.

Lemma plain_is_token s : s <> "" -> string_forall plain_char s = true -> is_token s = true.
Proof.
  intros Hne H. destruct s as [|c s]; [congruence |].
  exact (string_forall_impl _ _ _ plain_not_sep H).
Qed.

Lemma plain_toLowerCase s : string_forall plain_char s = true -> toLowerCase s = s.
Proof.
  induction s as [|c s IH]; [reflexivity |]. cbn [string_forall]. intros H.
  apply andb_true_iff in H as [Hc Hs]. unfold toLowerCase in *. cbn [map_string].
  rewrite (plain_lower c Hc), (IH Hs). reflexivity.
Qed.

Lemma pretty_head (z : Z) :
  exists c t, pretty z = String c t /\ Ascii.eqb c "x" = false.
Proof.
  destruct z as [|x|x].
  - exists "0"%char, "". split; reflexivity.
  - change (pretty (Z.pos x)) with (pretty_N_go (N.pos x) "").
    destruct (pretty_N_go_head (N.pos x) "" ltac:(lia)) as (d & t & -> & Hd).
    exists d, t. split; [reflexivity |]. each_char d; try discriminate Hd; reflexivity.
  - exists "-"%char, (pretty_N_go (N.pos x) ""). split; reflexivity.
Qed.

Lemma operandOf_pretty (z : Z) (rest : string) :
  ends_number rest = true ->
  operandOf (String "x" (String.append (pretty z) rest)) = JNum z /\
  operandOf (String.append (pretty z) rest) = JNum z.
Proof.
  intros H. unfold operandOf. split.
  - cbn [startsWith_x substring1]. change (Ascii.eqb "x" "x") with true. cbv iota.
    apply parseInt_pretty, H.
  - destruct (pretty_head z) as (c & t & E & Hc).
    assert (S : startsWith_x (String.append (pretty z) rest) = false)
      by (rewrite E, append_cons; exact Hc).
    rewrite S. apply parseInt_pretty, H.
Qed.


(** X26.  An operand word is read as follows, for an integer of
    magnitude at most 2^53 (the range in which the double that
    [parseInt] returns is the integer spelled): [x] followed by the
    decimal spelling of the integer gives that integer, and so does the
    spelling alone; what follows the number in the word is dropped,
    whenever it does not start with a digit or a letter.  In particular
    [off(xB)] is read as [off]: the base register does not reach the
    engine. *)
Theorem operand_word_value (z : Z) (rest : string) :
  - 2^53 <= z <= 2^53 ->
  ends_number rest = true ->
  operandOf (String "x" (String.append (pretty z) rest)) = JNum z /\
  operandOf (String.append (pretty z) rest) = JNum z.
Proof. intros _. apply operandOf_pretty. Qed.

Lemma operand_word_value_witness :
  operandOf (String "x" (String.append (pretty 6) ")")) = JNum 6 /\
  operandOf (String.append (pretty 6) ")") = JNum 6.
Proof. apply (operand_word_value 6 ")"); [lia | reflexivity]. Defined.

Example operand_words_sample :
  operandOf "x31" = JNum 31 /\ operandOf "-12(x6)" = JNum (-12) /\
  operandOf "9007199254740992" = JNum (2^53).
Proof. repeat split; vm_compute; reflexivity. Qed.

Lemma memoryText_parse m d off b :
  is_token m = true ->
  parseInstruction (memoryText m d off b) = mkParsed (toLowerCase m) [JNum d; JNum off].
Proof.
  intros Hm. unfold memoryText.
  set (w1 := String "x" (pretty d)).
  set (w2 := String.append (pretty off) (String.append "(x" (String.append (pretty b) ")"))).
  assert (P1 : string_forall plain_char w1 = true).
  { unfold w1. cbn [string_forall]. rewrite plain_pretty. reflexivity. }
  assert (P2 : string_forall plain_char w2 = true).
  { unfold w2. rewrite !string_forall_app, !plain_pretty. reflexivity. }
  assert (T1 : is_token w1 = true) by (apply plain_is_token; [discriminate | exact P1]).
  assert (T2 : is_token w2 = true).
  { apply plain_is_token; [| exact P2]. unfold w2.
    destruct (pretty_head off) as (c & t & -> & _). discriminate. }
  rewrite parseInstruction_spelled; [| exact Hm |].
  - cbn [map snd]. rewrite (plain_toLowerCase _ P1), (plain_toLowerCase _ P2).
    unfold w1, w2.
    pose proof (operandOf_pretty d "" eq_refl) as [V1 _].
    rewrite append_empty_r in V1. rewrite V1.
    destruct (operandOf_pretty off (String.append "(x" (String.append (pretty b) ")")) eq_refl)
      as [_ V2].
    rewrite V2. reflexivity.
  - cbn [well_spelled forallb fst snd]. rewrite T1, T2. reflexivity.
Qed.

(** X27.  A load or a store written [m xD, off(xB)], with [D] and [off]
    of magnitude at most 2^53, is decoded with the two operands [D] and
    [off]: the engine takes [off] as the index of the base register and
    0 as the offset, and register [B] plays no part.  A store writes
    register [D] to the cell addressed by register [off]; a load with
    [D] other than 0 reads that cell into register [D]. *)
Theorem base_register_notation_not_decoded
        (m : string) (d off b : Z) (p : processor) :
  is_token m = true ->
  - 2^53 <= d <= 2^53 ->
  - 2^53 <= off <= 2^53 ->
  let text := memoryText m d off b in
  let cell := memIndexOf (js_add (get (registers p) (JNum off)) (JNum 0)) in
  parseInstruction text = mkParsed (toLowerCase m) [JNum d; JNum off] /\
  (getOpcodeValue (toLowerCase m) = FNum 35 ->
   memory (execute text p) = <[cell := get (registers p) (JNum d)]> (memory p)) /\
  (getOpcodeValue (toLowerCase m) = FNum 3 -> d <> 0 ->
   registers (execute text p) = <[JNum d := get (memory p) cell]> (registers p)).
Proof.
  intros Hm _ _ text cell. pose proof (memoryText_parse m d off b Hm) as P.
  fold text in P. split; [exact P |]. split.
  - intros Hop. rewrite (execute_store_memory _ p _ _ P Hop). reflexivity.
  - intros Hop Hd. rewrite (execute_load_registers _ p _ _ P Hop). cbv zeta.
    assert (N : not_zero (operand [JNum d; JNum off] 0) = true).
    { unfold not_zero. cbn [operand nth strict_eq]. apply negb_true_iff, Z.eqb_neq, Hd. }
    rewrite N. reflexivity.
Qed.

Lemma base_register_notation_not_decoded_witness :
  (parseInstruction (memoryText "sw" 5 0 6) = mkParsed "sw" [JNum 5; JNum 0] /\
   memory (execute (memoryText "sw" 5 0 6) storeLoadState)
   = <[memIndexOf (js_add (get (registers storeLoadState) (JNum 0)) (JNum 0))
       := get (registers storeLoadState) (JNum 5)]> (memory storeLoadState)) /\
  (parseInstruction (memoryText "lw" 7 0 6) = mkParsed "lw" [JNum 7; JNum 0] /\
   registers (execute (memoryText "lw" 7 0 6) storeLoadState)
   = <[JNum 7 := get (memory storeLoadState)
                     (memIndexOf (js_add (get (registers storeLoadState) (JNum 0))
                                         (JNum 0)))]>
       (registers storeLoadState)).
Proof.
  split.
  - destruct (base_register_notation_not_decoded "sw" 5 0 6 storeLoadState
                eq_refl ltac:(lia) ltac:(lia)) as (P & S & _).
    split; [exact P | apply S; reflexivity].
  - destruct (base_register_notation_not_decoded "lw" 7 0 6 storeLoadState
                eq_refl ltac:(lia) ltac:(lia)) as (P & _ & L).
    split; [exact P | apply L; [reflexivity | lia]].
Defined.

Example memoryText_sample : memoryText "sw" 5 0 6 = "sw x5, 0(x6)".
Proof. vm_compute. reflexivity. Qed.

(** ** The lookup tables *)


Lemma field_eqb_refl f : field_eqb f f = true.
Proof. destruct f; [apply Z.eqb_refl | reflexivity]. Qed.



(** X28.  Every mnemonic of the opcode table belongs to one of the five
    classes and has an entry in the funct3 table, and the three decoded
    fields identify it: two supported mnemonics with the same opcode,
    funct3 and funct7 are the same mnemonic. *)
Theorem decoded_fields_identify_mnemonic (m1 m2 : string) :
  In m1 (keys opcodes) ->
  In m2 (keys opcodes) ->
  own funct3Map m1 <> None /\
  (exists c, In c [51; 19; 3; 35; 99] /\ getOpcodeValue m1 = FNum c) /\
  (getOpcodeValue m1 = getOpcodeValue m2 ->
   getFunct3 m1 = getFunct3 m2 ->
   getFunct7 m1 = getFunct7 m2 ->
   m1 = m2).
Proof.
  intros H1 H2.
  assert (C : table_checks = true) by (vm_compute; reflexivity).
  unfold table_checks in C. rewrite forallb_forall in C. specialize (C m1 H1).
  apply andb_true_iff in C as [C C3]. apply andb_true_iff in C as [C1 C2].
  split; [destruct (own funct3Map m1); [discriminate | discriminate C1] |]. split.
  - apply existsb_exists in C2 as (c & Hc & E). exists c. split; [exact Hc |].
    destruct (getOpcodeValue m1) as [z|]; [| discriminate E].
    apply Z.eqb_eq in E. congruence.
  - intros E1 E2 E3. rewrite forallb_forall in C3. specialize (C3 m2 H2).
    unfold same_fields in C3. rewrite E1, E2, E3, !field_eqb_refl in C3.
    apply String.eqb_eq. exact C3.
Qed.

Lemma decoded_fields_identify_mnemonic_witness :
  own funct3Map "sra" <> None /\
  (exists c, In c [51; 19; 3; 35; 99] /\ getOpcodeValue "sra" = FNum c) /\
  (getOpcodeValue "sra" = getOpcodeValue "srl" ->
   getFunct3 "sra" = getFunct3 "srl" ->
   getFunct7 "sra" = getFunct7 "srl" ->
   "sra" = "srl").
Proof.
  apply (decoded_fields_identify_mnemonic "sra" "srl");
    unfold keys; simpl; tauto.
Defined.

(** ** Reset and replay *)

(** X29.  A reset after a run is the reset before it: stepping does not
    change the program, and the program is all a reset keeps, so that
    after a reset the processor replays the same run whatever was
    executed before. *)
Theorem reset_replays_the_program (p : processor) (k n : nat) :
  resetProcessor (steps k p) = resetProcessor p /\
  steps n (resetProcessor (steps k p)) = steps n (resetProcessor p).
Proof.
  assert (S : forall a, resetProcessor a = set_instructions (instructions a) processor0)
    by reflexivity.
  assert (R : resetProcessor (steps k p) = resetProcessor p)
    by (rewrite !S, steps_instructions; reflexivity).
  split; [exact R | rewrite R; reflexivity].
Qed.
